(** * SMURF iterative map-maker: the astronomical-signal component,
      the range statistics routine and the exposure-time output

    A shallow embedding of three routines of the SMURF package,

    - [smf_calcmodel_ast]  (libsmf/smf_calcmodel_ast.c),
    - [smf_calc_stats]     (libsmf/smf_calc_stats.c),
    - the ITERATE and REBIN branches of [smurf_makemap] that derive the
      exposure time map (libsmurf/smurf_makemap.c),

    and of routines of the libraries around it,

    - [cnfCopyf], [cnfLenc] and [cnfImpla]  (libraries/cnf),
    - the conversions of libraries/prm/num1_cvt.c,
    - the ordering and the filling of contour levels in
      [cupidCFLevels]  (cupid/cupidsub/cupidcflevels.c),

    followed by the properties established for them.

    C doubles are the binary64 numbers of [PrimFloat], compared as C
    compares them.  The arrays the routines write are lists indexed
    from 0; a buffer that is only read is a function of the index.
    An access outside an array is undefined in C: the embedding reads
    the default element of the type there and drops a write.  Integer
    quantities are in [Z], or in [nat] where they
    bound a loop, with the wrap-around of the C type written out where
    the code can reach it.  The inherited status is threaded
    explicitly.  Constants and routines that the sources at hand use
    but do not contain enter as the fields of a class.  The iteration
    loop that invokes the component and the median of the exposure
    times are not in the sources either: where a property is about
    them they are modelled from the specification, under comments
    that say so. *)
From Stdlib Require Import ZArith Floats Bool Lia String Ascii Sorted.
From stdpp Require Import base list.

Local Open Scope Z_scope.

(** ** Constants of the Starlink environment *)

Module Prm.

(** Modelled from the spec: the status of a run in which nothing has
    failed.  sae_par.h is not among the sources; the value is the one
    that header gives. *)
Definition SAI__OK : Z := 0.

(** Modelled from the spec: the status of a fatal error, with the
    value sae_par.h gives. *)
Definition SAI__ERROR : Z := 148013867.

(** Modelled from the spec: the sentinel of an undefined double.
    prm_par.h is not among the sources; the value is the one that
    header gives, the most negative finite binary64 number. *)
Definition VAL__BADD : float :=
  Eval cbv in (PrimFloat.opp 0x1.fffffffffffffp+1023)%float.

(** Modelled from the spec: the sentinel of an undefined single
    precision number, the most negative finite binary32 number. *)
Definition VAL__BADR : float :=
  Eval cbv in (PrimFloat.opp 0x1.fffffep+127)%float.

(** Modelled from the spec: the sentinel of an unmapped sample in the
    LUT, the most negative 32-bit integer. *)
Definition VAL__BADI : Z := -2147483648.

(** [x == VAL__BADD] as C evaluates it. *)
Definition is_badd (x : float) : bool := PrimFloat.eqb x VAL__BADD.

(** [q & mask] read as a C condition. *)
Definition qual_has (q mask : Z) : bool := negb (Z.land q mask =? 0).

(** [for (i = 0; i < n; i++) st = body i st]. *)
Definition for_loop {S : Type} (n : nat) (body : nat -> S -> S) (st : S) : S :=
  fold_left (fun s i => body i s) (seq 0 n) st.

(** [if (go ii) a[ii] = f (ii, a[ii])]: the shape of a loop body that
    rewrites one element in place. *)
Definition point {A : Type} (go : nat -> bool) (f : nat -> A -> A)
    (ii : nat) (r : list A) : list A :=
  if go ii then alter (f ii) ii r else r.

(** The indices a loop over bolometers [li] and time slices [lj]
    visits, in order. *)
Definition visited (ok : nat -> bool) (ix : nat -> nat -> nat)
    (li lj : list nat) : list nat :=
  flat_map (fun i => if ok i then List.map (ix i) lj else []) li.

End Prm.
Export Prm.

#[global] Instance float_inhabited : Inhabited float := populate 0%float.

(** ** The astronomical-signal model component *)

Module Ast.

(** One [smfData]: the first data pointer (NULL is [None]) and what
    [smf_get_dims] reports for it. *)
Record smfData (A : Type) := SmfData {
  pntr0 : option (list A);
  d_nbolo : nat;
  d_ntslice : nat;
  d_bstride : nat;
  d_tstride : nat
}.
Arguments SmfData {A} _ _ _ _ _.
Arguments pntr0 {A} _.
Arguments d_nbolo {A} _.
Arguments d_ntslice {A} _.
Arguments d_bstride {A} _.
Arguments d_tstride {A} _.

#[global] Instance smfData_inhabited {A} : Inhabited (smfData A) :=
  populate (SmfData None 0 0 0 0).

(** An [smfArray]: [sdata[0 .. ndat-1]]. *)
Abbreviation smfArray A := (list (smfData A)) (only parsing).

(** The fields of [smfDIMMData] the component touches.  [res], [lut],
    [qua] and [noi] hold one [smfArray] per time chunk. *)
Record smfDIMMData := DIMMData {
  res : list (smfArray float);
  lut : list (smfArray Z);
  qua : list (smfArray Z);
  noi : option (list (smfArray float));
  map : list float;
  hitsmap : list Z;
  mapqual : list Z;
  mapvar : list float;
  mapweight : list float;
  mapweightsq : list float;
  msize : nat
}.

(** The entries of the "AST" sub-keymap that the component reads. *)
Record AstKeyMap := AstParams {
  GAUSSBG : float;
  MAPSPIKE : float;
  ZERO_NOTLAST : Z
}.

(** The locals that [smf_get_dims] fills in. *)
Record dims := Dims {
  nbolo : nat;
  ntslice : nat;
  bstride : nat;
  tstride : nat
}.

(** What the component uses from headers and routines that are not
    among the sources: the quality and control bit masks of
    smf_typ.h, the map despiker, the Gaussian high-pass filter
    (smf_create_smfFilter, smf_filter2d_gauss, smf_filter_complement
    and smf_filter_execute together, as a function of the bandwidth
    and the map) and the mask provider. *)
Class SmfLib := {
  SMF__Q_BADB : Z;
  SMF__Q_MOD : Z;
  SMF__MAPQ_ZERO : Z;
  SMF__DIMM_FIRSTITER : Z;
  SMF__DIMM_LASTITER : Z;
  (* quality of the first subarray after the despiker has run *)
  smf_map_spikes :
    smfData float -> smfData float -> smfData Z -> smfData Z ->
    list float -> list float -> list Z -> list float -> float -> smfData Z;
  smf_filter_gauss : float -> list float -> list float;
  (* NULL is [None]; arguments: the shared data, flags, status *)
  smf_get_mask : smfDIMMData -> Z -> Z -> option (list Z)
}.

Section Component.
Context `{L : SmfLib}.

Definition set_res (dat : smfDIMMData) (r : list (smfArray float)) :=
  DIMMData r (lut dat) (qua dat) (noi dat) (map dat) (hitsmap dat)
           (mapqual dat) (mapvar dat) (mapweight dat) (mapweightsq dat)
           (msize dat).
Definition set_qua (dat : smfDIMMData) (q : list (smfArray Z)) :=
  DIMMData (res dat) (lut dat) q (noi dat) (map dat) (hitsmap dat)
           (mapqual dat) (mapvar dat) (mapweight dat) (mapweightsq dat)
           (msize dat).
Definition set_map (dat : smfDIMMData) (m : list float) :=
  DIMMData (res dat) (lut dat) (qua dat) (noi dat) m (hitsmap dat)
           (mapqual dat) (mapvar dat) (mapweight dat) (mapweightsq dat)
           (msize dat).
Definition set_mapqual (dat : smfDIMMData) (q : list Z) :=
  DIMMData (res dat) (lut dat) (qua dat) (noi dat) (map dat) (hitsmap dat)
           q (mapvar dat) (mapweight dat) (mapweightsq dat) (msize dat).
Definition set_pntr0 {A} (d : smfData A) (p : list A) : smfData A :=
  SmfData (Some p) (d_nbolo d) (d_ntslice d) (d_bstride d) (d_tstride d).

(** Lines 230-234: a negative bandwidth sets the error status. *)
Definition ast_check_gaussbg (kmap : AstKeyMap) (status : Z) : Z :=
  if PrimFloat.ltb (GAUSSBG kmap) 0 then SAI__ERROR else status.

(** Lines 239-254: the map-based despiker, on the first subarray
    only ([idx] is still 0 there).  With a bad status the keymap
    is not read and the despiker returns at once. *)
Definition ast_flag_spikes (dat : smfDIMMData) (chunk : nat)
    (kmap : AstKeyMap) (flags status : Z) : smfDIMMData :=
  if negb (status =? SAI__OK) then dat else
  match noi dat with
  | Some noise =>
      if PrimFloat.ltb 0 (MAPSPIKE kmap)
         && negb (qual_has flags SMF__DIMM_FIRSTITER)
      then
        let q := qua dat !!! chunk in
        let q0 := smf_map_spikes ((res dat !!! chunk) !!! 0%nat)
                    ((noise !!! chunk) !!! 0%nat)
                    ((lut dat !!! chunk) !!! 0%nat) (q !!! 0%nat)
                    (map dat) (mapweight dat) (hitsmap dat) (mapvar dat)
                    (MAPSPIKE kmap) in
        set_qua dat (<[chunk := <[0%nat := q0]> q]> (qua dat))
      else dat
  | None => dat
  end.

(** Line 261: is the map to be constrained on this invocation? *)
Definition ast_filter_due (kmap : AstKeyMap) (flags : Z) : bool :=
  negb (PrimFloat.eqb (GAUSSBG kmap) 0)
  && negb (negb (ZERO_NOTLAST kmap =? 0)
           && qual_has flags SMF__DIMM_LASTITER).

(** Lines 284-286: undefined map values become 0 before filtering. *)
Definition zero_bad (msz : nat) (m : list float) : list float :=
  for_loop msz
    (fun i a => alter (fun x => if is_badd x then 0%float else x) i a) m.

(** Lines 261-304.  [smf_create_smfData] hands back a wrapper, and
    leaves the status alone, exactly when the status is good. *)
Definition ast_constrain_map (dat : smfDIMMData) (kmap : AstKeyMap)
    (flags status : Z) : smfDIMMData :=
  if ast_filter_due kmap flags then
    if status =? SAI__OK then
      set_map dat
        (smf_filter_gauss (GAUSSBG kmap) (zero_bad (msize dat) (map dat)))
    else dat
  else dat.

(** Lines 314-316. *)
Definition clear_zero (msz : nat) (q : list Z) : list Z :=
  for_loop msz
    (fun i a => alter (fun x => Z.land x (Z.lnot SMF__MAPQ_ZERO)) i a) q.

(** The test of lines 321-326 for pixel [i]. *)
Definition zero_cond (m mv : list float) (zm : list Z) (i : nat) : bool :=
  is_badd (m !!! i) || is_badd (mv !!! i) || PrimFloat.leb (mv !!! i) 0
  || negb ((zm !!! i) =? 0).

(** Lines 319-327. *)
Definition flag_zero (msz : nat) (m mv : list float) (zm : list Z)
    (q : list Z) : list Z :=
  for_loop msz
    (fun i a =>
       if is_badd (m !!! i) || is_badd (mv !!! i)
          || PrimFloat.leb (mv !!! i) 0
       then alter (fun x => Z.lor x SMF__MAPQ_ZERO) i a
       else if negb ((zm !!! i) =? 0)
       then alter (fun x => Z.lor x SMF__MAPQ_ZERO) i a
       else a) q.

(** Lines 311-328. *)
Definition ast_zero_mask (zmask : option (list Z)) (dat : smfDIMMData)
    : smfDIMMData :=
  match zmask with
  | Some zm =>
      set_mapqual dat
        (flag_zero (msize dat) (map dat) (mapvar dat) zm
                   (clear_zero (msize dat) (mapqual dat)))
  | None => dat
  end.

(** [zmask && zmask[p]] of line 367. *)
Definition masked (zmask : option (list Z)) (p : Z) : bool :=
  match zmask with
  | Some zm => negb ((zm !!! Z.to_nat p) =? 0)
  | None => false
  end.

(** The value [m] of lines 367-371 for the sample at [ii]. *)
Definition model_value (zmask : option (list Z)) (m : list float)
    (lut_data : list Z) (ii : nat) : float :=
  if masked zmask (lut_data !!! ii) then VAL__BADD
  else m !!! Z.to_nat (lut_data !!! ii).

(** Does the sample at [ii] get the map subtracted (lines 357, 373)? *)
Definition subtracts (zmask : option (list Z)) (m : list float)
    (lut_data qua_data : list Z) (ii : nat) : bool :=
  negb ((lut_data !!! ii) =? VAL__BADI)
  && (negb (is_badd (model_value zmask m lut_data ii))
      && negb (qual_has (qua_data !!! ii) SMF__Q_MOD)).

(** Lines 355-377: the body of the loop over data points. *)
Definition ast_sample (zmask : option (list Z)) (m : list float)
    (lut_data qua_data : list Z) (ii : nat) (res_data : list float)
    : list float :=
  if negb ((lut_data !!! ii) =? VAL__BADI) then
    let mv := model_value zmask m lut_data ii in
    if negb (is_badd mv) && negb (qual_has (qua_data !!! ii) SMF__Q_MOD)
    then alter (fun r => PrimFloat.sub r mv) ii res_data
    else res_data
  else res_data.

(** Lines 352-378: bolometers not flagged [SMF__Q_BADB], then time
    slices. *)
Definition ast_loops (zmask : option (list Z)) (m : list float)
    (lut_data qua_data : list Z) (d : dims) (res_data : list float)
    : list float :=
  for_loop (nbolo d)
    (fun i r =>
       if negb (qual_has (qua_data !!! (i * bstride d)%nat) SMF__Q_BADB)
       then for_loop (ntslice d)
              (fun j r' =>
                 ast_sample zmask m lut_data qua_data
                   (i * bstride d + j * tstride d)%nat r') r
       else r) res_data.

(** [smf_get_dims] is not among the sources.  It follows the
    inherited-status convention: with a bad status it returns at
    once and the locals keep their values. *)
Definition smf_get_dims {A} (d : smfData A) (status : Z) (old : dims) : dims :=
  if status =? SAI__OK
  then Dims (d_nbolo d) (d_ntslice d) (d_bstride d) (d_tstride d)
  else old.

(** Lines 337-379: the body of the loop over subarrays.  The state
    is the status, the dimension locals and the residual array. *)
Definition ast_subarray (zmask : option (list Z)) (m : list float)
    (l q : smfArray Z) (idx : nat)
    (st : Z * dims * smfArray float) : Z * dims * smfArray float :=
  let '(status, d, r) := st in
  match pntr0 (r !!! idx), pntr0 (l !!! idx), pntr0 (q !!! idx) with
  | Some res_data, Some lut_data, Some qua_data =>
      let d' := smf_get_dims (r !!! idx) status d in
      (status, d',
       <[idx := set_pntr0 (r !!! idx)
                  (ast_loops zmask m lut_data qua_data d' res_data)]> r)
  | _, _, _ => (SAI__ERROR, d, r)
  end.

(** Lines 335-380.  [smf_model_dataOrder] leaves the arrays in the
    order of the LUT, which is the order the dimensions describe. *)
Definition ast_residual (dat : smfDIMMData) (chunk : nat)
    (zmask : option (list Z)) (status : Z) : smfDIMMData * Z :=
  let r := res dat !!! chunk in
  let '(status', _, r') :=
    for_loop (length r)
      (ast_subarray zmask (map dat) (lut dat !!! chunk) (qua dat !!! chunk))
      (status, Dims 0 0 0 0, r) in
  (set_res dat (<[chunk := r']> (res dat)), status').

(** The shared data as they are when the mask is asked for. *)
Definition ast_before_mask (dat : smfDIMMData) (chunk : nat)
    (kmap : AstKeyMap) (flags status : Z) : smfDIMMData :=
  let status1 := ast_check_gaussbg kmap status in
  ast_constrain_map (ast_flag_spikes dat chunk kmap flags status1)
                    kmap flags status1.

(** The mask that line 308 obtains. *)
Definition ast_zmask (dat : smfDIMMData) (chunk : nat)
    (kmap : AstKeyMap) (flags status : Z) : option (list Z) :=
  smf_get_mask (ast_before_mask dat chunk kmap flags status) flags
               (ast_check_gaussbg kmap status).

(** [smf_calcmodel_ast]: the shared data and the status it leaves. *)
Definition smf_calcmodel_ast (dat : smfDIMMData) (chunk : nat)
    (kmap : AstKeyMap) (flags status : Z) : smfDIMMData * Z :=
  if negb (status =? SAI__OK) then (dat, status) else
  let status1 := ast_check_gaussbg kmap status in
  let dat1 := ast_before_mask dat chunk kmap flags status in
  let zmask := ast_zmask dat chunk kmap flags status in
  ast_residual (ast_zero_mask zmask dat1) chunk zmask status1.

(** The residual of sample [ii] of subarray [idx] of a chunk. *)
Definition res_sample (dat : smfDIMMData) (chunk idx ii : nat) : option float :=
  match res dat !! chunk with
  | Some r =>
      match r !! idx with
      | Some d => match pntr0 d with
                  | Some a => a !! ii
                  | None => None
                  end
      | None => None
      end
  | None => None
  end.

(** [res_data[ii] -= m] of line 374, as a function of the old value. *)
Definition sub_model (zmask : option (list Z)) (m : list float)
    (lut_data : list Z) (ii : nat) (r : float) : float :=
  PrimFloat.sub r (model_value zmask m lut_data ii).

(** What the loop body leaves in place of subarray [idx] when it
    runs with dimensions [dd]. *)
Definition sub_result (zmask : option (list Z)) (m : list float)
    (l q : smfArray Z) (rdat : smfData float) (idx : nat) (dd : dims)
    : option (smfData float) :=
  match pntr0 rdat, pntr0 (l !!! idx), pntr0 (q !!! idx) with
  | Some rd, Some ld, Some qd =>
      Some (set_pntr0 rdat (ast_loops zmask m ld qd dd rd))
  | _, _, _ => None
  end.

End Component.

(** The strides address every sample of a subarray once, as the
    time-ordered ([bstride] 1) and the bolometer-ordered ([tstride] 1)
    data orders do. *)
Definition layout_ok (d : dims) : Prop :=
  forall i j i' j' : nat,
    (i < nbolo d)%nat -> (j < ntslice d)%nat ->
    (i' < nbolo d)%nat -> (j' < ntslice d)%nat ->
    (i * bstride d + j * tstride d = i' * bstride d + j' * tstride d)%nat ->
    i = i' /\ j = j'.

Definition dims_of {A} (d : smfData A) : dims :=
  Dims (d_nbolo d) (d_ntslice d) (d_bstride d) (d_tstride d).

Definition has_data {A} (d : smfData A) : bool :=
  match pntr0 d with Some _ => true | None => false end.

(** No subarray of the chunk has a NULL residual, LUT or quality
    pointer. *)
Definition chunk_complete (r : smfArray float) (l q : smfArray Z) : bool :=
  forallb (fun idx => has_data (r !!! idx) && has_data (l !!! idx)
                      && has_data (q !!! idx))
          (seq 0 (length r)).

End Ast.

(** ** Statistics of a range of samples *)

Module Stats.

(** The data types of an [smfData]; the routine names
    [SMF__DOUBLE] and [SMF__INTEGER] and leaves the rest to the
    [default] arm of its switches. *)
Inductive smf_dtype :=
| SMF__NULL | SMF__INTEGER | SMF__FLOAT | SMF__DOUBLE | SMF__USHORT
| SMF__UBYTE.

(** The block behind [(data->pntr)[0]], which the routine reads through
    a [double *] or an [int *] according to [dtype]. *)
Record buffer := Buffer {
  as_double : Z -> float;
  as_int : Z -> Z
}.

Record smfData := SmfData {
  ndims : Z;
  dims : list Z;
  dtype : smf_dtype;
  pntr0 : option buffer
}.

(** What the routine uses from headers and libraries that are not
    among the sources: the width of [dim_t] and [size_t], the size of
    an element, the allocator (whether a block is handed back, and the
    status the call leaves) and the KAPLIBS statistics routines (the
    status they leave, the mean and the standard deviation). *)
Class StatsLib := {
  dim_bits : Z;
  smf_dtype_size : smf_dtype -> Z;
  smf_malloc : Z -> Z -> bool * Z;
  kpgStatd : list float -> Z * float * float;
  kpgStati : list Z -> Z * float * float
}.

(** [strncmp (mode, c, 1) == 0]. *)
Definition mode_is (c : ascii) (mode : string) : bool :=
  match mode with
  | String c' _ => Ascii.eqb c' c
  | EmptyString => false
  end.

(** Conversion of an integer to [int]: 32 bits, two's complement,
    a value out of range reduced modulo 2^32. *)
Definition to_int (x : Z) : Z := (x + 2 ^ 31) mod 2 ^ 32 - 2 ^ 31.

Section Routine.
Context `{L : StatsLib}.

(** [dim_t] and [size_t] are unsigned: their arithmetic, and a
    conversion to them, wraps at the width of the type. *)
Definition wrap (x : Z) : Z := x mod 2 ^ dim_bits.

(** Every error exit: bad status, mean and standard deviation as
    initialised on lines 188-189. *)
Definition stats_fail : Z * float * float :=
  (SAI__ERROR, VAL__BADD, VAL__BADD).

(** Lines 205-224: [(nmax, nsamp, nbol)] for the mode, or nothing for
    an unsupported mode. *)
Definition stats_axes (data : smfData) (mode : string) : option (Z * Z * Z) :=
  let d0 := nth 0 (dims data) 0 in
  let d1 := nth 1 (dims data) 0 in
  let d2 := nth 2 (dims data) 0 in
  if mode_is "b" mode then Some (wrap (d0 * d1), d2, wrap (d0 * d1))
  else if mode_is "t" mode then Some (d2, wrap (d0 * d1), wrap (d0 * d1))
  else None.

(** Lines 261-267: the bounds are exchanged through [int temp]. *)
Definition stats_swap (lo hi : Z) : Z * Z :=
  if hi <? lo then (hi, wrap (to_int lo)) else (lo, hi).

(** Lines 239-283: the range the statistics are taken over, or nothing
    when the routine reports an error. *)
Definition stats_range (nsamp lo hi : Z) : option (Z * Z) :=
  if nsamp <=? lo then None else
  if nsamp <=? hi then None else
  let '(lo, hi) := stats_swap lo hi in
  let hi := if (lo =? 0) && (hi =? 0) then wrap (nsamp - 1) else hi in
  if lo =? hi then None else Some (lo, hi).

(** Lines 318-320 and 325-327: the samples [k = lo .. hi] gathered
    from [in[offset + k*mult]]. *)
Definition stats_copy {A} (a : Z -> A) (offset mult lo npts : Z) : list A :=
  List.map (fun i => a (wrap (offset + wrap ((lo + Z.of_nat i) * mult))))
           (seq 0 (Z.to_nat npts)).

(** [smf_calc_stats]: the status, mean and standard deviation it
    leaves.  Between the entry check and the allocation nothing can
    change the status, so each guard on the status being good
    in lines 194-282 holds where it is reached. *)
Definition smf_calc_stats (data : smfData) (mode : string)
    (index lo hi : Z) (mean stdev : float) (status : Z) : Z * float * float :=
  if negb (status =? SAI__OK) then (status, mean, stdev) else
  if negb (ndims data =? 3) then stats_fail else
  match stats_axes data mode with
  | None => stats_fail
  | Some (nmax, nsamp, nbol) =>
      if nmax <=? index then stats_fail else
      match stats_range nsamp lo hi with
      | None => stats_fail
      | Some (lo, hi) =>
          let nbperel := smf_dtype_size (dtype data) in
          let npts := wrap (hi - lo + 1) in
          let '(got, status) := smf_malloc npts nbperel in
          if negb got then (status, VAL__BADD, VAL__BADD) else
          let '(offset, mult) :=
            if mode_is "b" mode then (index, nbol)
            else (wrap (nbol * index), 1) in
          match pntr0 data with
          | Some buf =>
              match dtype data with
              | SMF__DOUBLE =>
                  if status =? SAI__OK
                  then kpgStatd (stats_copy (as_double buf) offset mult lo npts)
                  else (status, VAL__BADD, VAL__BADD)
              | SMF__INTEGER =>
                  if status =? SAI__OK
                  then kpgStati (stats_copy (as_int buf) offset mult lo npts)
                  else (status, VAL__BADD, VAL__BADD)
              | _ => (SAI__ERROR, VAL__BADD, VAL__BADD)
              end
          | None => (SAI__ERROR, VAL__BADD, VAL__BADD)
          end
      end
  end.

End Routine.

End Stats.

(** ** The exposure-time map of the iterative map-maker *)

Module Makemap.

(** The median routine is not among the sources: the median it stores
    for an array of the given number of elements. *)
Class MakemapLib := {
  smf_find_median : list float -> nat -> float
}.

(** Conversion of an [unsigned int] hit count to [double]. *)
Definition hits_to_double (h : Z) : float :=
  PrimFloat.of_uint63 (Uint63.of_Z h).

(** What the ITERATE branch derives from the map and the hits map. *)
Record exposure := Exposure {
  exp_time : list float;
  maxtexp : float;
  medtexp : float;
  fits_EXP_TIME : option float
}.

Section Iterate.
Context `{L : MakemapLib}.

(** Lines 1177-1184: the body of the loop over output pixels. *)
Definition exp_time_pixel (steptime : float) (map : list float)
    (hitsmap : list Z) (i : nat) (st : list float * float)
    : list float * float :=
  let '(et, mx) := st in
  if is_badd (map !!! i) then (<[i := VAL__BADD]> et, mx)
  else
    let e := PrimFloat.mul steptime (hits_to_double (hitsmap !!! i)) in
    (<[i := e]> et, if PrimFloat.ltb mx e then e else mx).

(** Lines 1176-1185: the loop runs only under a good status. *)
Definition exp_time_loop (status : Z) (steptime : float) (map : list float)
    (hitsmap : list Z) (nxy : nat) (st : list float * float)
    : list float * float :=
  if status =? SAI__OK
  then for_loop nxy (exp_time_pixel steptime map hitsmap) st
  else st.

(** Lines 1175-1213 of [smurf_makemap], given the map and the hits
    map that [smf_iteratemap] has left, the step time of the first
    input file and the mapped EXP_TIME array.  [maxtexp] and [medtexp]
    start at 0; with a bad status neither the median routine nor
    [atlPtftr] does anything. *)
Definition makemap_exposure (status : Z) (steptime : float)
    (map : list float) (hitsmap : list Z) (nxy : nat)
    (exp_time0 : list float) : exposure :=
  let '(et, mx) :=
    exp_time_loop status steptime map hitsmap nxy (exp_time0, 0%float) in
  let med := if status =? SAI__OK then smf_find_median et nxy else 0%float in
  Exposure et mx med
    (if negb (PrimFloat.eqb med VAL__BADR) && (status =? SAI__OK)
     then Some med else None).

End Iterate.

End Makemap.

(** ** The iteration loop around the component *)

Module Iteration.
Import Ast.

Section Loop.
Context `{L : SmfLib}.

(** Modelled from the spec: the control flags of section 4.1, by which
    the loop tells a component the first and the last of [maxiter]
    iterations.  smf_iteratemap, which sets them, is not among the
    sources. *)
Definition iter_flags (maxiter i : nat) : Z :=
  Z.lor (if (i =? 0)%nat then SMF__DIMM_FIRSTITER else 0)
        (if (S i =? maxiter)%nat then SMF__DIMM_LASTITER else 0).

(** Modelled from the spec: the iteration loop of section 4.1, which
    smf_iteratemap implements and which is not among the sources, for
    a registry that holds the astronomical-signal component and a run
    over one chunk.  The loop starts at iteration 0 with the status it
    is entered with; each iteration invokes the component, as the
    sources have it, with the flags of that iteration; a component
    that signals a fatal error aborts the run.  This is the state
    after [n] iterations. *)
Fixpoint iterations (maxiter n : nat) (chunk : nat) (kmap : AstKeyMap)
    (st : smfDIMMData * Z) : smfDIMMData * Z :=
  match n with
  | O => st
  | S k =>
      let '(dat, status) := iterations maxiter k chunk kmap st in
      if status =? SAI__OK
      then smf_calcmodel_ast dat chunk kmap (iter_flags maxiter k) status
      else (dat, status)
  end.



End Loop.

End Iteration.

(** ** Readings of the specification that the code is compared with *)

Module Worded.
Import Ast Iteration.

Section Component.
Context `{L : SmfLib}.

(** Residual subtraction as the specification words it: on an
    invocation with a good status, a sample with a valid LUT entry on
    a bolometer not flagged bad keeps its residual if its pixel is
    masked to zero (by the mask in force, or by the zero bit of the
    map quality) or if the sample is excluded from model fitting, and
    has the map value of its pixel subtracted otherwise. *)
Definition subtracts_unless_masked_or_excluded (dat : smfDIMMData)
    (chunk : nat) (kmap : AstKeyMap) (flags : Z) (idx i j : nat) : Prop :=
  let out := fst (smf_calcmodel_ast dat chunk kmap flags SAI__OK) in
  let zmask := ast_zmask dat chunk kmap flags SAI__OK in
  forall rdat rd ld qd,
    (res dat !!! chunk) !! idx = Some rdat -> pntr0 rdat = Some rd ->
    pntr0 ((lut out !!! chunk) !!! idx) = Some ld ->
    pntr0 ((qua out !!! chunk) !!! idx) = Some qd ->
    (i < d_nbolo rdat)%nat -> (j < d_ntslice rdat)%nat ->
    let ii := (i * d_bstride rdat + j * d_tstride rdat)%nat in
    let p := Z.to_nat (ld !!! ii) in
    ld !!! ii <> VAL__BADI ->
    qual_has (qd !!! (i * d_bstride rdat)%nat) SMF__Q_BADB = false ->
    res_sample out chunk idx ii
    = (if masked zmask (ld !!! ii)
          || qual_has (mapqual out !!! p) SMF__MAPQ_ZERO
          || qual_has (qd !!! ii) SMF__Q_MOD
       then id
       else fun r => PrimFloat.sub r (map out !!! p)) <$> rd !! ii.

(** The zero bit as the specification words it: on every invocation
    with a good status the bit of each pixel ends up set exactly when
    the value is undefined, the variance is undefined or not positive,
    or the mask in force marks the pixel. *)
Definition zero_bit_recomputed_always (dat : smfDIMMData) (chunk : nat)
    (kmap : AstKeyMap) (flags : Z) : Prop :=
  let out := fst (smf_calcmodel_ast dat chunk kmap flags SAI__OK) in
  forall i : nat,
    (i < msize dat)%nat -> (i < length (mapqual dat))%nat ->
    qual_has (mapqual out !!! i) SMF__MAPQ_ZERO
    = (is_badd (map out !!! i) || is_badd (mapvar out !!! i)
       || PrimFloat.leb (mapvar out !!! i) 0
       || match ast_zmask dat chunk kmap flags SAI__OK with
          | Some zm => negb ((zm !!! i) =? 0)
          | None => false
          end).


(** The filter as the specification words it: on an invocation with a
    good status the map is filtered whenever the bandwidth is not
    zero, unless ZERO_NOTLAST is set and the invocation is the last
    iteration. *)
Definition filter_whenever_nonzero (dat : smfDIMMData) (chunk : nat)
    (kmap : AstKeyMap) (flags : Z) : Prop :=
  let out := fst (smf_calcmodel_ast dat chunk kmap flags SAI__OK) in
  PrimFloat.eqb (GAUSSBG kmap) 0 = false ->
  ~ (ZERO_NOTLAST kmap <> 0 /\ qual_has flags SMF__DIMM_LASTITER = true) ->
  map out = smf_filter_gauss (GAUSSBG kmap) (zero_bad (msize dat) (map dat)).

End Component.

Section Statistics.
Import Stats.
Context `{L : StatsLib}.

(** A single-point range as the specification words it: the unit is
    skipped and the status stays good. *)
Definition single_point_not_fatal (data : Stats.smfData) (mode : string)
    (index lo : Z) (mean stdev : float) : Prop :=
  fst (fst (smf_calc_stats data mode index lo lo mean stdev SAI__OK))
  = SAI__OK.

(** Symmetry in the bounds, as the specification words it. *)
Definition bounds_symmetric (data : Stats.smfData) (mode : string)
    (index lo hi : Z) (mean stdev : float) : Prop :=
  smf_calc_stats data mode index lo hi mean stdev SAI__OK
  = smf_calc_stats data mode index hi lo mean stdev SAI__OK.

End Statistics.

End Worded.

(** ** Sample configurations and data *)

Module Examples.
Import Ast.

(** Bit masks in the manner of smf_typ.h, a despiker and a filter that
    act, and no mask in force. *)
Definition lib_nomask : SmfLib :=
  Build_SmfLib 2 255 1 2 8
    (fun _ _ _ q _ _ _ _ _ => q)
    (fun bw m => List.map (fun x => PrimFloat.sub x bw) m)
    (fun _ _ _ => None).

(** The same with a mask over the second of two pixels. *)
Definition lib_mask : SmfLib :=
  Build_SmfLib 2 255 1 2 8
    (fun _ _ _ q _ _ _ _ _ => q)
    (fun bw m => List.map (fun x => PrimFloat.sub x bw) m)
    (fun _ _ _ => Some [0; 1]).

(** One chunk with one subarray of four samples. *)
Definition scenario_dat (nb nt bs ts : nat) : smfDIMMData :=
  DIMMData [[SmfData (Some [5; 7; 2; 4]%float) nb nt bs ts]]
           [[SmfData (Some [0; 0; 1; 1]) nb nt bs ts]]
           [[SmfData (Some [0; 0; 0; 0]) nb nt bs ts]]
           None [3; 1]%float [2; 2] [0; 0] [1; 1]%float [1; 1]%float
           [1; 1]%float 2.

(** Neither background suppression nor despiking. *)
Definition scenario_kmap : AstKeyMap := AstParams 0 0 0.


(** One sample looking at a pixel whose map value is undefined. *)
Definition bad_pixel_dat : smfDIMMData :=
  DIMMData [[SmfData (Some [5]%float) 1 1 1 1]]
           [[SmfData (Some [0]) 1 1 1 1]]
           [[SmfData (Some [0]) 1 1 1 1]]
           None [VAL__BADD; 1]%float [0; 2] [0; 0] [1; 1]%float
           [1; 1]%float [1; 1]%float 2.

(** A chunk of two subarrays of one sample each, the first without
    residual data. *)
Definition null_first_dat : smfDIMMData :=
  DIMMData [[SmfData None 1 1 1 1; SmfData (Some [5]%float) 1 1 1 1]]
           [[SmfData (Some [0]) 1 1 1 1; SmfData (Some [0]) 1 1 1 1]]
           [[SmfData (Some [0]) 1 1 1 1; SmfData (Some [0]) 1 1 1 1]]
           None [3; 1]%float [2; 2] [0; 0] [1; 1]%float [1; 1]%float
           [1; 1]%float 2.

(** A negative and a positive bandwidth. *)
Definition negative_kmap : AstKeyMap := AstParams (-1) 0 0.
Definition positive_kmap : AstKeyMap := AstParams 2 0 0.

(** The mean of a list of doubles, left to right. *)
Definition float_mean (l : list float) : float :=
  PrimFloat.div (fold_left PrimFloat.add l 0%float)
                (PrimFloat.of_uint63 (Uint63.of_Z (Z.of_nat (length l)))).

(** A platform with 64-bit [dim_t] and [size_t], an allocator that
    refuses a request of 2^40 bytes or more (the byte count taken in
    [size_t]), and statistics routines that return the mean and a zero
    deviation. *)
Definition lib64 : Stats.StatsLib :=
  Stats.Build_StatsLib 64
    (fun t => match t with
              | Stats.SMF__DOUBLE => 8
              | Stats.SMF__INTEGER | Stats.SMF__FLOAT => 4
              | Stats.SMF__USHORT => 2
              | Stats.SMF__UBYTE => 1
              | Stats.SMF__NULL => 0
              end)
    (fun n sz => if (n * sz) mod 2 ^ 64 <? 2 ^ 40
                 then (true, SAI__OK) else (false, SAI__ERROR))
    (fun l => (SAI__OK, float_mean l, 0%float))
    (fun l => (SAI__OK,
               float_mean (List.map (fun k => PrimFloat.of_uint63
                                                (Uint63.of_Z k)) l),
               0%float)).

(** One bolometer observed for [n] time slices, sample [k] holding
    the value [k]. *)
Definition ramp (n : Z) : Stats.smfData :=
  Stats.SmfData 3 [1; 1; n] Stats.SMF__DOUBLE
    (Some (Stats.Buffer (fun k => PrimFloat.of_uint63 (Uint63.of_Z k))
                        (fun k => k))).

(** A median routine that takes the middle element as stored. *)
Definition lib_median : Makemap.MakemapLib :=
  Makemap.Build_MakemapLib (fun l n => l !!! (n / 2)%nat).

End Examples.

(** ** The samples a range of the statistics routine selects *)

Module StatsRange.
Import Stats.

(** The element of the data array that holds sample [k] of bolometer
    [index] (mode b), or bolometer [k] of time slice [index] (mode t),
    in an array of [nbol] bolometers with the bolometer index running
    fastest. *)
Definition stats_source (mode : string) (nbol index k : Z) : Z :=
  if mode_is "b" mode then index + k * nbol else nbol * index + k.

(** [lo, lo + 1, ..., hi]. *)
Definition zrange (lo hi : Z) : list Z :=
  List.map (fun i => lo + Z.of_nat i) (seq 0 (Z.to_nat (hi - lo + 1))).

(** The buffer of [Examples.ramp]. *)
Definition ramp_buffer : buffer :=
  Buffer (fun k => PrimFloat.of_uint63 (Uint63.of_Z k)) (fun k => k).

End StatsRange.

(** ** The exposure time and the weights of the REBIN branch *)

Module Rebin.

(** What the REBIN branch derives for one tile from the map and the
    3-D weights array that [smf_rebinmap1] has filled. *)
Record tile_exposure := TileExposure {
  t_exp_time : list float;
  t_weights : list float;
  t_maxtexp : float
}.

(** Lines 998-1007 of smurf_makemap.c: the body of the loop over the
    pixels of the tile. *)
Definition rebin_pixel (steptime : float) (map weights3d : list float)
    (nxy : nat) (i : nat) (st : tile_exposure) : tile_exposure :=
  if is_badd (map !!! i)
  then TileExposure (<[i := VAL__BADD]> (t_exp_time st))
                    (<[i := VAL__BADD]> (t_weights st)) (t_maxtexp st)
  else
    let e := PrimFloat.mul steptime (weights3d !!! i) in
    TileExposure (<[i := e]> (t_exp_time st))
                 (<[i := weights3d !!! (i + nxy)%nat]> (t_weights st))
                 (if PrimFloat.ltb (t_maxtexp st) e then e
                  else t_maxtexp st).

(** Lines 997-1008: the loop runs only under a good status. *)
Definition rebin_exposure (status : Z) (steptime : float)
    (map weights3d : list float) (nxy : nat) (st : tile_exposure)
    : tile_exposure :=
  if status =? SAI__OK
  then for_loop nxy (rebin_pixel steptime map weights3d nxy) st
  else st.

End Rebin.

(** ** Strings and logical arrays between C and FORTRAN *)

Module Cnf.

#[global] Instance ascii_inhabited : Inhabited ascii := populate "000"%char.

(** [for ( ; i < b; i++) st = body i st] with [i] coming in as [a]. *)
Definition for_from {S : Type} (a b : nat) (body : nat -> S -> S) (st : S) : S :=
  fold_left (fun s i => body i s) (seq a (b - a)) st.

(** cnfCopyf.c, lines 65-80.  The two strings are distinct arrays. *)
Definition cnfCopyf (source_f : list ascii) (source_len : Z)
    (dest_f : list ascii) (dest_len : Z) : list ascii :=
  if source_len <? dest_len then
    let d := for_loop (Z.to_nat source_len)
               (fun i d => <[i := source_f !!! i]> d) dest_f in
    for_from (Z.to_nat source_len) (Z.to_nat dest_len)
      (fun i d => <[i := " "%char]> d) d
  else
    for_loop (Z.to_nat dest_len)
      (fun i d => <[i := source_f !!! i]> d) dest_f.

(** cnfLenc.c, lines 66-67: the index of the first null character.
    An array without one is read to its end. *)
Fixpoint c_strlen (source_c : list ascii) : nat :=
  match source_c with
  | [] => 0
  | c :: rest => if Ascii.eqb c "000" then 0%nat else S (c_strlen rest)
  end.

(** cnfLenc.c, lines 71-74: from [i = n - 1] downwards while
    [i >= 0] and the character is a blank; the result is [i + 1]. *)
Fixpoint skip_blanks (source_c : list ascii) (n : nat) : nat :=
  match n with
  | O => 0
  | S i => if Ascii.eqb (source_c !!! i) " " then skip_blanks source_c i
           else S i
  end.

(** cnfLenc.c, lines 66-74. *)
Definition cnfLenc (source_c : list ascii) : Z :=
  Z.of_nat (skip_blanks source_c (c_strlen source_c)).

(** f77.h is not among the sources: the C truth value of a FORTRAN
    LOGICAL. *)
Class F77Lib := {
  F77_ISTRUE : Z -> Z
}.

(** cnfImpla.c, lines 67-71.  [nels] is an [int]: a product of the
    dimensions that does not fit is undefined in C, and wraps to 32
    bits here, as it does in the compiled code. *)
Definition cnfImpla `{F : F77Lib} (source_f dest_c : list Z) (ndims : Z)
    (dims : list Z) : list Z :=
  let nels := for_loop (Z.to_nat ndims)
                (fun i nels => Stats.to_int (nels * dims !!! i)) 1 in
  for_loop (Z.to_nat nels)
    (fun el d => <[el := F77_ISTRUE (source_f !!! el)]> d) dest_c.

(** A LOGICAL that is true when it is not 0. *)
Definition f77_nonzero : F77Lib :=
  Build_F77Lib (fun v => if v =? 0 then 0 else 1).

End Cnf.

(** ** Conversions between integer types through a union *)

Module Num1.

(** The bytes of the [n]-byte two's complement image of [v], lowest
    address first, on a platform that stores the most significant
    byte first ([big]) or last. *)
Definition to_bytes (big : bool) (n : nat) (v : Z) : list Z :=
  let le := List.map (fun k => (v / 256 ^ Z.of_nat k) mod 256) (seq 0 n) in
  if big then rev le else le.

(** The unsigned number that a run of bytes holds. *)
Definition of_bytes (big : bool) (bs : list Z) : Z :=
  fold_right (fun b acc => b + 256 * acc) 0 (if big then rev bs else bs).

(** The same bytes read through a signed type. *)
Definition of_bytes_signed (big : bool) (bs : list Z) : Z :=
  let u := of_bytes big bs in
  if u <? 256 ^ Z.of_nat (length bs) / 2 then u
  else u - 256 ^ Z.of_nat (length bs).

(** Writing a member of a union at byte offset [off], and reading one
    of [n] bytes there. *)
Definition put (off : nat) (bs un : list Z) : list Z :=
  take off un ++ bs ++ drop (off + length bs) un.
Definition get (off n : nat) (un : list Z) : list Z :=
  take n (drop off un).

(** [num1_ubtoi_] (lines 94-114): [int ret_val] over
    [unsigned char ubyte[4]], or over one [unsigned char]. *)
Definition num1_ubtoi (WORDS_BIGENDIAN : bool) (num_argub : Z) : Z :=
  let un := to_bytes WORDS_BIGENDIAN 4 0 in
  let un := put (if WORDS_BIGENDIAN then 3 else 0)
                (to_bytes WORDS_BIGENDIAN 1 num_argub) un in
  of_bytes_signed WORDS_BIGENDIAN (get 0 4 un).

(** [num1_ubtouw_] (lines 147-168). *)
Definition num1_ubtouw (WORDS_BIGENDIAN : bool) (num_argub : Z) : Z :=
  let un := to_bytes WORDS_BIGENDIAN 2 0 in
  let un := put (if WORDS_BIGENDIAN then 1 else 0)
                (to_bytes WORDS_BIGENDIAN 1 num_argub) un in
  of_bytes WORDS_BIGENDIAN (get 0 2 un).

(** [num1_ubtow_] (lines 203-225). *)
Definition num1_ubtow (WORDS_BIGENDIAN : bool) (num_argub : Z) : Z :=
  let un := to_bytes WORDS_BIGENDIAN 2 0 in
  let un := put (if WORDS_BIGENDIAN then 1 else 0)
                (to_bytes WORDS_BIGENDIAN 1 num_argub) un in
  of_bytes_signed WORDS_BIGENDIAN (get 0 2 un).

(** [num1_uwtoi_] (lines 259-281): [uword[1]] is at byte offset 2. *)
Definition num1_uwtoi (WORDS_BIGENDIAN : bool) (num_arguw : Z) : Z :=
  let un := to_bytes WORDS_BIGENDIAN 4 0 in
  let un := put (if WORDS_BIGENDIAN then 2 else 0)
                (to_bytes WORDS_BIGENDIAN 2 num_arguw) un in
  of_bytes_signed WORDS_BIGENDIAN (get 0 4 un).

(** [num1_wtoub_] (lines 315-335). *)
Definition num1_wtoub (WORDS_BIGENDIAN : bool) (num_argw : Z) : Z :=
  let un := to_bytes WORDS_BIGENDIAN 2 num_argw in
  of_bytes WORDS_BIGENDIAN (get (if WORDS_BIGENDIAN then 1 else 0) 1 un).

(** [num1_itouw_] (lines 369-389): [ret_val[1]] is at byte offset 2. *)
Definition num1_itouw (WORDS_BIGENDIAN : bool) (num_argi : Z) : Z :=
  let un := to_bytes WORDS_BIGENDIAN 4 num_argi in
  of_bytes WORDS_BIGENDIAN (get (if WORDS_BIGENDIAN then 2 else 0) 2 un).

End Num1.

(** ** The order of the binary64 numbers *)

Module FloatOrder.

(** The place of a number in the order that [<] puts the binary64
    numbers in: the sign and the class first, then the exponent and
    the mantissa, both mirrored for the negative numbers. *)
Definition fkey (f : spec_float) : Z * Z * Z :=
  match f with
  | S754_zero _ => (0, 0, 0)
  | S754_infinity false => (2, 0, 0)
  | S754_infinity true => (-2, 0, 0)
  | S754_nan => (0, 0, 0)
  | S754_finite false m e => (1, e, Z.pos m)
  | S754_finite true m e => (-1, - e, - Z.pos m)
  end.

Definition key_lt (a b : Z * Z * Z) : Prop :=
  a.1.1 < b.1.1
  \/ (a.1.1 = b.1.1
      /\ (a.1.2 < b.1.2 \/ (a.1.2 = b.1.2 /\ a.2 < b.2))).

(** [x] is a number: [x == x] holds in C. *)
Definition is_num (x : float) : Prop := PrimFloat.is_nan x = false.

End FloatOrder.

(** ** The contour levels of ClumpFind *)

Module Cupid.

(** Lines 131-136 of cupidcflevels.c: the body of the loop over
    neighbouring levels. *)
Definition cf_compare_swap (i : nat) (st : list float * bool)
    : list float * bool :=
  let '(ret, more) := st in
  if PrimFloat.ltb (ret !!! i) (ret !!! (i + 1)%nat) then
    let clevel := ret !!! i in
    let ret := <[i := ret !!! (i + 1)%nat]> ret in
    (<[(i + 1)%nat := clevel]> ret, true)
  else (ret, more).

(** Lines 129-137: one pass, [more] being 0 when it starts. *)
Definition cf_pass (ihi : nat) (ret : list float) : list float * bool :=
  for_loop ihi cf_compare_swap (ret, false).

(** Lines 128-139.  [ihi] goes down by one with each pass; a pass
    with [ihi] at 0 has nothing to compare, leaves [more] at 0 and
    ends the loop. *)
Fixpoint cf_passes (ihi : nat) (ret : list float) : list float :=
  match ihi with
  | O => ret
  | S k => let '(ret', more) := cf_pass (S k) ret in
           if more then cf_passes k ret' else ret'
  end.

(** Lines 125-139, for the [nlevels] levels read into [ret]. *)
Definition cf_sort_levels (ret : list float) : list float :=
  cf_passes (length ret - 1) ret.

(** Lines 171-175: [ret[i] = clevel; clevel += cdelta] for
    [i = n - 1] down to 0, [n] being the number of levels. *)
Fixpoint cf_fill (n : nat) (clevel cdelta : float) (ret : list float)
    : list float :=
  match n with
  | O => ret
  | S i => cf_fill i (PrimFloat.add clevel cdelta) cdelta (<[i := clevel]> ret)
  end.

(** The comparisons [0 .. k-1] of a pass, from any state. *)
Definition pass (k : nat) (st : list float * bool) : list float * bool :=
  for_loop k cf_compare_swap st.

(** A state with one more level in front. *)
Definition push (z : float) (st : list float * bool) : list float * bool :=
  (z :: fst st, snd st).

(** No level of [p] is smaller than one of [s]. *)
Definition settled (p s : list float) : Prop :=
  Forall (fun x => Forall (fun y => PrimFloat.ltb x y = false) s) p.

End Cupid.

(** ** The median of the exposure times *)

Module Median.
Import Makemap.

(** Modelled from the spec: the valid pixels of section 6, over which
    the median is taken: those of the first [nel] elements of the
    array that do not hold VAL__BADD. *)
Definition valid_pixels (a : list float) (nel : nat) : list float :=
  List.filter (fun x => negb (is_badd x)) (take nel a).

(** How many elements of [v] satisfy [f]. *)
Fixpoint count (f : float -> bool) (v : list float) : nat :=
  match v with
  | [] => 0
  | x :: rest => ((if f x then 1 else 0) + count f rest)%nat
  end.

(** Modelled from the spec: [m] is a median of [v]: at most half of
    the values are below it and at most half are above it. *)
Definition is_median (v : list float) (m : float) : bool :=
  (2 * count (fun x => PrimFloat.ltb x m) v <=? length v)%nat
  && (2 * count (fun x => PrimFloat.ltb m x) v <=? length v)%nat.

(** Modelled from the spec: "its median across valid pixels"
    (section 6).  [smf_find_median], which lines 1209 and 1034 call,
    is not among the sources.  The median is the first of the valid
    values that is a median of them; with no such value the result is
    VAL__BADR, the value that line 1210 tests for.  The spec has no
    single-precision numbers: the median is a double here. *)
Definition median_valid (a : list float) (nel : nat) : float :=
  match List.find (is_median (valid_pixels a nel)) (valid_pixels a nel) with
  | Some m => m
  | None => VAL__BADR
  end.

(** Modelled from the spec: the median routine of the iterative
    map-maker. *)
Definition spec_median : MakemapLib := Build_MakemapLib median_valid.

End Median.

(** ** Loops over arrays *)

Section Loops.

Lemma for_loop_S {S : Type} (n : nat) (body : nat -> S -> S) (st : S) :
  for_loop (Datatypes.S n) body st = body n (for_loop n body st).
Proof.
  unfold for_loop. rewrite seq_S, fold_left_app. reflexivity.
Qed.

Lemma for_loop_0 {S : Type} (body : nat -> S -> S) (st : S) :
  for_loop 0 body st = st.
Proof. reflexivity. Qed.

Lemma fold_left_pointwise {S B : Type} (f g : S -> B -> S) (l : list B)
    (st : S) :
  (forall s x, f s x = g s x) -> fold_left f l st = fold_left g l st.
Proof.
  intros Hfg. revert st.
  induction l as [|x l IH]; intros st; [reflexivity|].
  cbn [fold_left]. rewrite Hfg. apply IH.
Qed.

(** A loop whose body rewrites element [i] from its own old value
    rewrites each element below the bound once. *)
Lemma for_loop_alter_lookup {A : Type} (g : nat -> A -> A) (n : nat)
    (a : list A) (k : nat) :
  for_loop n (fun i s => alter (g i) i s) a !! k
  = if decide (k < n)%nat then g k <$> a !! k else a !! k.
Proof.
  induction n as [|n IH].
  - rewrite for_loop_0. case_decide; [lia | reflexivity].
  - rewrite for_loop_S.
    destruct (decide (n = k)) as [->|Hne].
    + rewrite list_lookup_alter_eq, IH.
      repeat case_decide; try lia. reflexivity.
    + rewrite list_lookup_alter_ne by assumption. rewrite IH.
      repeat case_decide; try lia; reflexivity.
Qed.

Lemma for_loop_alter_length {A : Type} (g : nat -> A -> A) (n : nat)
    (a : list A) :
  length (for_loop n (fun i s => alter (g i) i s) a) = length a.
Proof.
  induction n as [|n IH]; [reflexivity|].
  rewrite for_loop_S, length_alter. exact IH.
Qed.

(** Point updates folded over a list of indices. *)
Section Points.
Context {A : Type} (go : nat -> bool) (f : nat -> A -> A).

Lemma point_fold_skip (ixs : list nat) (r : list A) (k : nat) :
  k ∉ ixs \/ go k = false ->
  fold_left (fun s ii => point go f ii s) ixs r !! k = r !! k.
Proof.
  revert r. induction ixs as [|ii ixs IH]; intros r Hk; [reflexivity|].
  cbn [fold_left]. rewrite IH.
  - unfold point. destruct (go ii) eqn:Hgo; [|reflexivity].
    apply list_lookup_alter_ne. intros ->.
    destruct Hk as [Hk|Hk]; [|congruence].
    apply Hk. left.
  - destruct Hk as [Hk|Hk]; [left|right; exact Hk].
    intros Hin. apply Hk. right. exact Hin.
Qed.

Lemma point_fold_once (ixs : list nat) (r : list A) (k : nat) :
  NoDup ixs -> k ∈ ixs -> go k = true ->
  fold_left (fun s ii => point go f ii s) ixs r !! k = f k <$> r !! k.
Proof.
  revert r. induction ixs as [|ii ixs IH]; intros r Hnd Hin Hgo.
  - inversion Hin.
  - apply NoDup_cons in Hnd as [Hni Hnd]. cbn [fold_left].
    apply elem_of_cons in Hin as [->|Hin].
    + rewrite point_fold_skip by (left; exact Hni).
      unfold point. rewrite Hgo. apply list_lookup_alter_eq.
    + rewrite IH by assumption. f_equal.
      unfold point. destruct (go ii); [|reflexivity].
      apply list_lookup_alter_ne. intros ->. contradiction.
Qed.

Lemma point_fold_length (ixs : list nat) (r : list A) :
  length (fold_left (fun s ii => point go f ii s) ixs r) = length r.
Proof.
  revert r. induction ixs as [|ii ixs IH]; intros r; [reflexivity|].
  cbn [fold_left]. rewrite IH. unfold point.
  destruct (go ii); [apply length_alter | reflexivity].
Qed.
End Points.


Lemma nested_fold_visited {A : Type} (ok : nat -> bool)
    (ix : nat -> nat -> nat) (body : nat -> list A -> list A)
    (li lj : list nat) (r : list A) :
  fold_left
    (fun s i => if ok i
                then fold_left (fun s' j => body (ix i j) s') lj s
                else s) li r
  = fold_left (fun s ii => body ii s) (visited ok ix li lj) r.
Proof.
  revert r. induction li as [|i li IH]; intros r; [reflexivity|].
  cbn [fold_left visited flat_map]. rewrite fold_left_app.
  fold (visited ok ix li lj). rewrite IH. f_equal.
  destruct (ok i); [|reflexivity].
  clear. revert r. induction lj as [|j lj IHlj]; intros r; [reflexivity|].
  cbn [fold_left List.map]. apply IHlj.
Qed.

Lemma elem_of_visited (ok : nat -> bool) (ix : nat -> nat -> nat)
    (li lj : list nat) (k : nat) :
  k ∈ visited ok ix li lj <->
  exists i j, i ∈ li /\ j ∈ lj /\ ok i = true /\ k = ix i j.
Proof.
  unfold visited. rewrite list_elem_of_In, in_flat_map. split.
  - intros (i & Hi & Hk). destruct (ok i) eqn:Hok; [|destruct Hk].
    apply in_map_iff in Hk as (j & <- & Hj).
    exists i, j. rewrite !list_elem_of_In. auto.
  - intros (i & j & Hi & Hj & Hok & ->). exists i.
    rewrite list_elem_of_In in Hi, Hj. split; [exact Hi|].
    rewrite Hok. apply in_map. exact Hj.
Qed.

Lemma NoDup_visited (ok : nat -> bool) (ix : nat -> nat -> nat)
    (li lj : list nat) :
  NoDup li -> NoDup lj ->
  (forall i j i' j', i ∈ li -> j ∈ lj -> i' ∈ li -> j' ∈ lj ->
     ix i j = ix i' j' -> i = i' /\ j = j') ->
  NoDup (visited ok ix li lj).
Proof.
  intros His Hjs Hinj. induction li as [|i li IH]; [constructor|].
  apply NoDup_cons in His as [Hni His].
  cbn [visited flat_map]. fold (visited ok ix li lj).
  apply NoDup_app. split; [|split].
  - destruct (ok i); [|constructor].
    apply (NoDup_fmap_2_strong (ix i)); [|exact Hjs].
    intros j j' Hj Hj' Heq.
    apply (Hinj i j i j'); auto; left.
  - intros k Hk Hk'.
    apply elem_of_visited in Hk' as (i' & j' & Hi' & Hj' & _ & ->).
    destruct (ok i); [|inversion Hk].
    apply list_elem_of_fmap in Hk as (j & Heq & Hj).
    assert (i = i') as <-; [|contradiction].
    apply (Hinj i j i' j'); auto; [left | right; exact Hi'].
  - apply IH; [exact His|].
    intros a b a' b' Ha Hb Ha' Hb'. apply Hinj; auto; right; assumption.
Qed.

End Loops.

(** ** Properties of the astronomical-signal component *)

Module AstProps.
Import Ast Iteration Worded Examples.


Lemma layout_ok_tordered (nb nt : nat) : layout_ok (Dims nb nt 1 nb).
Proof.
  intros i j i' j' Hi Hj Hi' Hj' Heq. cbn in *.
  assert (j = j') by nia. subst j'. split; [nia | reflexivity].
Qed.

Lemma layout_ok_bordered (nb nt : nat) : layout_ok (Dims nb nt nt 1).
Proof.
  intros i j i' j' Hi Hj Hi' Hj' Heq. cbn in *.
  assert (i = i') by nia. subst i'. split; [reflexivity | nia].
Qed.


Section WithLib.
Context `{L : SmfLib}.

Section Samples.
Variables (zmask : option (list Z)) (m : list float)
          (lut_data qua_data : list Z).

Abbreviation go := (subtracts zmask m lut_data qua_data) (only parsing).
Abbreviation f := (sub_model zmask m lut_data) (only parsing).

Lemma ast_sample_point (ii : nat) (r : list float) :
  ast_sample zmask m lut_data qua_data ii r = point go f ii r.
Proof.
  unfold ast_sample, point, sub_model, subtracts.
  destruct (negb _); [|reflexivity].
  cbn [andb]. destruct (_ && _); reflexivity.
Qed.

Lemma ast_loops_visited (d : dims) (r : list float) :
  ast_loops zmask m lut_data qua_data d r
  = fold_left (fun s ii => point go f ii s)
      (visited
         (fun i => negb (qual_has (qua_data !!! (i * bstride d)%nat)
                                  SMF__Q_BADB))
         (fun i j => (i * bstride d + j * tstride d)%nat)
         (seq 0 (nbolo d)) (seq 0 (ntslice d))) r.
Proof.
  unfold ast_loops, for_loop.
  rewrite <- (nested_fold_visited _ _ (point go f)).
  apply fold_left_pointwise. intros s i.
  destruct (negb _); [|reflexivity].
  apply fold_left_pointwise. intros s' j. apply ast_sample_point.
Qed.

(** A sample that does not qualify keeps its residual. *)
Lemma ast_loops_skip (d : dims) (r : list float) (k : nat) :
  go k = false ->
  ast_loops zmask m lut_data qua_data d r !! k = r !! k.
Proof.
  intros Hk. rewrite ast_loops_visited.
  apply point_fold_skip. right. exact Hk.
Qed.

Lemma ast_loops_length (d : dims) (r : list float) :
  length (ast_loops zmask m lut_data qua_data d r) = length r.
Proof. rewrite ast_loops_visited. apply point_fold_length. Qed.

(** Under a layout that addresses each sample once, the sample
    of bolometer [i] at time slice [j] is rewritten exactly when
    the bolometer is not flagged and the sample qualifies. *)
Lemma ast_loops_exact (d : dims) (r : list float) (i j : nat) :
  layout_ok d -> (i < nbolo d)%nat -> (j < ntslice d)%nat ->
  let ii := (i * bstride d + j * tstride d)%nat in
  ast_loops zmask m lut_data qua_data d r !! ii
  = (if negb (qual_has (qua_data !!! (i * bstride d)%nat) SMF__Q_BADB)
        && go ii
     then f ii else id) <$> r !! ii.
Proof.
  intros Hlay Hi Hj ii. rewrite ast_loops_visited.
  set (ok := fun i0 : nat => negb _).
  set (ix := fun i0 j0 : nat => _).
  assert (Hmem : ii ∈ visited ok ix (seq 0 (nbolo d)) (seq 0 (ntslice d))
                 <-> ok i = true).
  { rewrite elem_of_visited. split.
    - intros (i' & j' & Hi' & Hj' & Hok & Heq).
      apply elem_of_seq in Hi', Hj'.
      destruct (Hlay i j i' j') as [-> _]; auto; lia.
    - intros Hok. exists i, j. rewrite !elem_of_seq.
      repeat split; auto; lia. }
  change (negb (qual_has (qua_data !!! (i * bstride d)%nat) SMF__Q_BADB))
    with (ok i).
  destruct (ok i) eqn:Hok; cbn [andb].
  - destruct (go ii) eqn:Hgo.
    + apply point_fold_once; [|apply Hmem; reflexivity|exact Hgo].
      apply NoDup_visited; [apply NoDup_seq..|].
      intros a b a' b' Ha Hb Ha' Hb'.
      apply elem_of_seq in Ha, Hb, Ha', Hb'.
      apply Hlay; lia.
    + rewrite point_fold_skip by (right; exact Hgo).
      destruct (r !! ii); reflexivity.
  - rewrite point_fold_skip.
    + destruct (r !! ii); reflexivity.
    + left. rewrite Hmem. discriminate.
Qed.
End Samples.

(** *** The loop over subarrays *)

Section Subarrays.
Variables (zmask : option (list Z)) (m : list float) (l q : smfArray Z).

Abbreviation F := (ast_subarray zmask m l q) (only parsing).


Lemma lookup_total_pntr0 {A} (r : smfArray A) (idx : nat) (p : list A) :
  pntr0 (r !!! idx) = Some p ->
  exists rdat, r !! idx = Some rdat /\ r !!! idx = rdat.
Proof.
  rewrite list_lookup_total_alt.
  destruct (r !! idx) as [rdat|]; cbn; [eauto | discriminate].
Qed.

Lemma ast_subarray_other (idx k : nat) (st : Z * dims * smfArray float) :
  k <> idx -> snd (F idx st) !! k = snd st !! k.
Proof.
  intros Hne. destruct st as [[s d] r]. unfold ast_subarray.
  destruct (pntr0 (r !!! idx)); [|reflexivity].
  destruct (pntr0 (l !!! idx)); [|reflexivity].
  destruct (pntr0 (q !!! idx)); [|reflexivity].
  cbn [snd]. apply list_lookup_insert_ne. congruence.
Qed.

Lemma subarray_loop_above (n k : nat) (st : Z * dims * smfArray float) :
  (n <= k)%nat -> snd (for_loop n F st) !! k = snd st !! k.
Proof.
  induction n as [|n IH]; intros Hk; [reflexivity|].
  rewrite for_loop_S, ast_subarray_other by lia. apply IH. lia.
Qed.

Lemma subarray_loop_gen (n k : nat) (st : Z * dims * smfArray float) :
  snd (for_loop n F st) !! k = snd st !! k
  \/ exists rdat dd out,
       snd st !! k = Some rdat /\ sub_result zmask m l q rdat k dd = Some out
       /\ snd (for_loop n F st) !! k = Some out.
Proof.
  induction n as [|n IH]; [left; reflexivity|].
  rewrite for_loop_S.
  destruct (decide (k = n)) as [->|Hne];
    [|rewrite ast_subarray_other by exact Hne; exact IH].
  clear IH. pose proof (subarray_loop_above n n st (le_n n)) as Hsame.
  destruct (for_loop n F st) as [[s d] r]. cbn [snd] in Hsame.
  unfold ast_subarray.
  destruct (pntr0 (r !!! n)) as [rd|] eqn:Hrd; [|left; exact Hsame].
  destruct (pntr0 (l !!! n)) as [ld|] eqn:Hld; [|left; exact Hsame].
  destruct (pntr0 (q !!! n)) as [qd|] eqn:Hqd; [|left; exact Hsame].
  destruct (lookup_total_pntr0 _ _ _ Hrd) as (rdat & Hr & Hrt).
  right. exists rdat, (smf_get_dims (r !!! n) s d). eexists.
  split; [rewrite <- Hsame; exact Hr|]. split.
  - unfold sub_result. rewrite <- Hrt, Hrd, Hld, Hqd. reflexivity.
  - cbn [snd]. apply list_lookup_insert_eq.
    apply lookup_lt_Some in Hr. exact Hr.
Qed.

Lemma subarray_loop_ok (n : nat) (d : dims) (r : smfArray float) :
  (n <= length r)%nat ->
  forallb (fun idx => has_data (r !!! idx) && has_data (l !!! idx)
                      && has_data (q !!! idx)) (seq 0 n) = true ->
  fst (fst (for_loop n F (SAI__OK, d, r))) = SAI__OK
  /\ forall idx rdat, (idx < n)%nat -> r !! idx = Some rdat ->
       snd (for_loop n F (SAI__OK, d, r)) !! idx
       = sub_result zmask m l q rdat idx (dims_of rdat).
Proof.
  induction n as [|n IH]; intros Hn Hall.
  - split; [reflexivity | intros; lia].
  - rewrite seq_S, forallb_app in Hall. cbn in Hall.
    apply andb_prop in Hall as [Hall Hn'].
    rewrite andb_true_r in Hn'.
    apply andb_prop in Hn' as [Hn' Hq]. apply andb_prop in Hn' as [Hr Hl].
    destruct (IH ltac:(lia) Hall) as [Hs Hres]. clear IH.
    rewrite for_loop_S.
    pose proof (subarray_loop_above n n (SAI__OK, d, r) (le_n n)) as Hsame.
    destruct (for_loop n F (SAI__OK, d, r)) as [[s d'] r'].
    cbn [fst snd] in *. subst s.
    assert (Htot : r' !!! n = r !!! n)
      by (rewrite !list_lookup_total_alt, Hsame; reflexivity).
    unfold ast_subarray. rewrite Htot.
    unfold has_data in Hr, Hl, Hq.
    destruct (pntr0 (r !!! n)) as [rd|] eqn:Hrd; [|discriminate].
    destruct (pntr0 (l !!! n)) as [ld|] eqn:Hld; [|discriminate].
    destruct (pntr0 (q !!! n)) as [qd|] eqn:Hqd; [|discriminate].
    cbn [fst snd]. split; [reflexivity|].
    intros idx rdat Hidx Hlk.
    destruct (decide (idx = n)) as [->|Hne].
    + assert (Hrt : r !!! n = rdat)
        by (rewrite list_lookup_total_alt, Hlk; reflexivity).
      rewrite list_lookup_insert_eq
        by (apply lookup_lt_is_Some; rewrite Hsame, Hlk; eauto).
      unfold sub_result. rewrite <- Hrt, Hrd, Hld, Hqd. reflexivity.
    + rewrite list_lookup_insert_ne by congruence.
      apply Hres; [lia | exact Hlk].
Qed.
End Subarrays.

(** *** Which fields each stage touches *)

Section Frames.

Lemma ast_residual_eq (dat : smfDIMMData) (chunk : nat)
    (zmask : option (list Z)) (status : Z) :
  ast_residual dat chunk zmask status
  = (set_res dat
       (<[chunk := snd (for_loop (length (res dat !!! chunk))
                          (ast_subarray zmask (map dat) (lut dat !!! chunk)
                                        (qua dat !!! chunk))
                          (status, Dims 0 0 0 0, res dat !!! chunk))]>
          (res dat)),
     fst (fst (for_loop (length (res dat !!! chunk))
                 (ast_subarray zmask (map dat) (lut dat !!! chunk)
                               (qua dat !!! chunk))
                 (status, Dims 0 0 0 0, res dat !!! chunk)))).
Proof.
  unfold ast_residual. cbv zeta.
  destruct (for_loop _ _ _) as [[s d] r]. reflexivity.
Qed.

Lemma ast_check_gaussbg_bad (kmap : AstKeyMap) (status : Z) :
  status <> SAI__OK -> ast_check_gaussbg kmap status <> SAI__OK.
Proof.
  intros Hs. unfold ast_check_gaussbg.
  destruct (PrimFloat.ltb _ _); [discriminate | exact Hs].
Qed.

Lemma ast_before_mask_bad (dat : smfDIMMData) (chunk : nat)
    (kmap : AstKeyMap) (flags status : Z) :
  ast_check_gaussbg kmap status <> SAI__OK ->
  ast_before_mask dat chunk kmap flags status = dat.
Proof.
  intros Hs. apply Z.eqb_neq in Hs.
  unfold ast_before_mask, ast_constrain_map, ast_flag_spikes.
  rewrite Hs. cbn [negb]. destruct (ast_filter_due _ _); reflexivity.
Qed.

Lemma ast_flag_spikes_frame (dat : smfDIMMData) (chunk : nat)
    (kmap : AstKeyMap) (flags status : Z) :
  let d := ast_flag_spikes dat chunk kmap flags status in
  res d = res dat /\ lut d = lut dat /\ map d = map dat
  /\ mapqual d = mapqual dat /\ mapvar d = mapvar dat /\ msize d = msize dat.
Proof.
  unfold ast_flag_spikes.
  destruct (negb _); [repeat split|].
  destruct (noi dat); [|repeat split].
  destruct (_ && _); repeat split.
Qed.

Lemma ast_before_mask_frame (dat : smfDIMMData) (chunk : nat)
    (kmap : AstKeyMap) (flags status : Z) :
  let d := ast_before_mask dat chunk kmap flags status in
  res d = res dat /\ lut d = lut dat /\ mapqual d = mapqual dat
  /\ mapvar d = mapvar dat /\ msize d = msize dat.
Proof.
  cbv zeta. unfold ast_before_mask.
  destruct (ast_flag_spikes_frame dat chunk kmap flags
              (ast_check_gaussbg kmap status))
    as (Hr & Hl & _ & Hq & Hv & Hm).
  unfold ast_constrain_map.
  destruct (ast_filter_due _ _); [|repeat split; assumption].
  destruct (_ =? _); repeat split; assumption.
Qed.

Lemma ast_zero_mask_frame (zmask : option (list Z)) (dat : smfDIMMData) :
  let d := ast_zero_mask zmask dat in
  res d = res dat /\ lut d = lut dat /\ qua d = qua dat /\ map d = map dat
  /\ mapvar d = mapvar dat /\ msize d = msize dat
  /\ hitsmap d = hitsmap dat /\ mapweight d = mapweight dat.
Proof. destruct zmask; repeat split. Qed.

Lemma smf_calcmodel_ast_ok (dat : smfDIMMData) (chunk : nat)
    (kmap : AstKeyMap) (flags : Z) :
  smf_calcmodel_ast dat chunk kmap flags SAI__OK
  = ast_residual
      (ast_zero_mask (ast_zmask dat chunk kmap flags SAI__OK)
                     (ast_before_mask dat chunk kmap flags SAI__OK))
      chunk (ast_zmask dat chunk kmap flags SAI__OK)
      (ast_check_gaussbg kmap SAI__OK).
Proof. reflexivity. Qed.

Lemma smf_calcmodel_ast_bad (dat : smfDIMMData) (chunk : nat)
    (kmap : AstKeyMap) (flags status : Z) :
  status <> SAI__OK ->
  smf_calcmodel_ast dat chunk kmap flags status = (dat, status).
Proof.
  intros Hs. apply Z.eqb_neq in Hs. unfold smf_calcmodel_ast.
  rewrite Hs. reflexivity.
Qed.

(** The component leaves the LUT, the variance and the size alone,
    and the map and the quality as they were when the mask was asked
    for. *)
Lemma smf_calcmodel_ast_frame (dat : smfDIMMData) (chunk : nat)
    (kmap : AstKeyMap) (flags status : Z) :
  let out := fst (smf_calcmodel_ast dat chunk kmap flags status) in
  let d1 := ast_before_mask dat chunk kmap flags status in
  lut out = lut dat /\ mapvar out = mapvar dat /\ msize out = msize dat
  /\ map out = map d1 /\ qua out = qua d1.
Proof.
  cbv zeta. destruct (decide (status = SAI__OK)) as [->|Hs].
  - rewrite smf_calcmodel_ast_ok, ast_residual_eq. cbn [fst].
    destruct (ast_zero_mask_frame (ast_zmask dat chunk kmap flags SAI__OK)
                (ast_before_mask dat chunk kmap flags SAI__OK))
      as (_ & Hl & Hq & Hm & Hv & Hs & _).
    destruct (ast_before_mask_frame dat chunk kmap flags SAI__OK)
      as (_ & Hl' & _ & Hv' & Hs').
    cbn [lut mapvar msize map qua set_res].
    rewrite Hl, Hq, Hm, Hv, Hs. repeat split; assumption.
  - rewrite smf_calcmodel_ast_bad by exact Hs. cbn [fst].
    rewrite ast_before_mask_bad by (apply ast_check_gaussbg_bad; exact Hs).
    repeat split.
Qed.

End Frames.

(** *** The zero bit of the map quality *)

Section ZeroMask.

Lemma land_lor_same (y m : Z) : Z.land (Z.lor y m) m = m.
Proof.
  apply Z.bits_inj'. intros n Hn.
  rewrite Z.land_spec, Z.lor_spec.
  destruct (Z.testbit y n), (Z.testbit m n); reflexivity.
Qed.

Lemma land_clear_same (x m : Z) : Z.land (Z.land x (Z.lnot m)) m = 0.
Proof.
  apply Z.bits_inj'. intros n Hn.
  rewrite !Z.land_spec, Z.lnot_spec, Z.bits_0 by exact Hn.
  destruct (Z.testbit x n), (Z.testbit m n); reflexivity.
Qed.

Lemma land_lor_lnot (y m : Z) :
  Z.land (Z.lor y m) (Z.lnot m) = Z.land y (Z.lnot m).
Proof.
  apply Z.bits_inj'. intros n Hn.
  rewrite !Z.land_spec, Z.lor_spec, Z.lnot_spec by exact Hn.
  destruct (Z.testbit y n), (Z.testbit m n); reflexivity.
Qed.

Lemma land_clear_lnot (x m : Z) :
  Z.land (Z.land x (Z.lnot m)) (Z.lnot m) = Z.land x (Z.lnot m).
Proof.
  apply Z.bits_inj'. intros n Hn.
  rewrite !Z.land_spec, Z.lnot_spec by exact Hn.
  destruct (Z.testbit x n), (Z.testbit m n); reflexivity.
Qed.

Lemma clear_zero_lookup (msz : nat) (q : list Z) (i : nat) :
  clear_zero msz q !! i
  = if decide (i < msz)%nat
    then (fun x => Z.land x (Z.lnot SMF__MAPQ_ZERO)) <$> q !! i
    else q !! i.
Proof. unfold clear_zero. apply for_loop_alter_lookup. Qed.

Lemma flag_zero_lookup (msz : nat) (m mv : list float) (zm q : list Z)
    (i : nat) :
  flag_zero msz m mv zm q !! i
  = if decide (i < msz)%nat
    then (fun x => if zero_cond m mv zm i
                   then Z.lor x SMF__MAPQ_ZERO else x) <$> q !! i
    else q !! i.
Proof.
  unfold flag_zero.
  rewrite <- (for_loop_alter_lookup
                (fun i x => if zero_cond m mv zm i
                            then Z.lor x SMF__MAPQ_ZERO else x)).
  f_equal. unfold for_loop. apply fold_left_pointwise. intros a k.
  unfold zero_cond.
  destruct (is_badd (m !!! k) || is_badd (mv !!! k)
            || PrimFloat.leb (mv !!! k) 0); cbn [orb]; [reflexivity|].
  destruct (negb _); [reflexivity|].
  symmetry. apply list_alter_id. reflexivity.
Qed.


(** After the mask step the zero bit of a pixel tells whether the
    test of lines 321-326 held for it; the other bits are as before. *)
Lemma ast_zero_mask_pixel (zm : list Z) (dat : smfDIMMData) (i : nat) :
  SMF__MAPQ_ZERO <> 0 ->
  (i < msize dat)%nat -> (i < length (mapqual dat))%nat ->
  qual_has (mapqual (ast_zero_mask (Some zm) dat) !!! i) SMF__MAPQ_ZERO
  = zero_cond (map dat) (mapvar dat) zm i.
Proof.
  intros Hz Hi Hlen. cbn [ast_zero_mask set_mapqual mapqual].
  rewrite list_lookup_total_alt, flag_zero_lookup, clear_zero_lookup.
  destruct (lookup_lt_is_Some_2 _ _ Hlen) as [x Hx]. rewrite Hx.
  case_decide; [|lia]. cbn. unfold qual_has.
  destruct (zero_cond _ _ _ _).
  - rewrite land_lor_same. apply negb_true_iff, Z.eqb_neq. exact Hz.
  - rewrite land_clear_same. reflexivity.
Qed.


End ZeroMask.

(** *** The residual of one sample *)

Section Residuals.

Lemma res_sample_insert (dat : smfDIMMData) (chunk idx ii : nat)
    (r r' : list (smfData float)) :
  res dat !! chunk = Some r ->
  res_sample (set_res dat (<[chunk := r']> (res dat))) chunk idx ii
  = match r' !! idx with
    | Some d => match pntr0 d with Some a => a !! ii | None => None end
    | None => None
    end.
Proof.
  intros Hr. unfold res_sample. cbn [res set_res].
  rewrite list_lookup_insert_eq by (apply lookup_lt_Some in Hr; exact Hr).
  reflexivity.
Qed.

Lemma ast_residual_sample_cases (dat : smfDIMMData) (chunk : nat)
    (zmask : option (list Z)) (status : Z) (idx ii : nat) :
  let out := fst (ast_residual dat chunk zmask status) in
  res_sample out chunk idx ii = res_sample dat chunk idx ii
  \/ exists rd ld qd dd,
       pntr0 ((lut dat !!! chunk) !!! idx) = Some ld
       /\ pntr0 ((qua dat !!! chunk) !!! idx) = Some qd
       /\ res_sample dat chunk idx ii = rd !! ii
       /\ res_sample out chunk idx ii
          = ast_loops zmask (map dat) ld qd dd rd !! ii.
Proof.
  cbv zeta. rewrite ast_residual_eq. cbn [fst].
  destruct (res dat !! chunk) as [r|] eqn:Hr.
  - assert (Hrt : res dat !!! chunk = r)
      by (rewrite list_lookup_total_alt, Hr; reflexivity).
    rewrite Hrt, (res_sample_insert dat chunk idx ii r _ Hr).
    destruct (subarray_loop_gen zmask (map dat) (lut dat !!! chunk)
                (qua dat !!! chunk) (length r) idx (status, Dims 0 0 0 0, r))
      as [Hsame | (rdat & dd & o & Hlk & Hsub & Hout)]; cbn [snd] in *.
    + left. rewrite Hsame. unfold res_sample. rewrite Hr. reflexivity.
    + unfold sub_result in Hsub.
      destruct (pntr0 rdat) as [rd|] eqn:Hrd; [|discriminate].
      destruct (pntr0 (_ !!! idx)) as [ld|] eqn:Hld; [|discriminate].
      destruct (pntr0 ((qua dat !!! chunk) !!! idx)) as [qd|] eqn:Hqd;
        [|discriminate].
      injection Hsub as <-.
      right. exists rd, ld, qd, dd. repeat split.
      * unfold res_sample. rewrite Hr, Hlk, Hrd. reflexivity.
      * rewrite Hout. reflexivity.
  - left. rewrite list_insert_ge by (apply lookup_ge_None; exact Hr).
    destruct dat; reflexivity.
Qed.

Lemma res_sample_res (d d' : smfDIMMData) (chunk idx ii : nat) :
  res d = res d' -> res_sample d chunk idx ii = res_sample d' chunk idx ii.
Proof. intros H. unfold res_sample. rewrite H. reflexivity. Qed.

Lemma model_value_bad (zmask : option (list Z)) (m : list float)
    (ld : list Z) (ii : nat) :
  is_badd (m !!! Z.to_nat (ld !!! ii)) = true ->
  is_badd (model_value zmask m ld ii) = true.
Proof.
  intros H. unfold model_value. destruct (masked _ _); [reflexivity | exact H].
Qed.

Lemma ast_residual_sample_exact (dat : smfDIMMData) (chunk : nat)
    (zmask : option (list Z)) (r : list (smfData float)) (idx ii : nat)
    (rdat : smfData float) (rd : list float) (ld qd : list Z) :
  res dat !! chunk = Some r ->
  chunk_complete r (lut dat !!! chunk) (qua dat !!! chunk) = true ->
  r !! idx = Some rdat -> pntr0 rdat = Some rd ->
  pntr0 ((lut dat !!! chunk) !!! idx) = Some ld ->
  pntr0 ((qua dat !!! chunk) !!! idx) = Some qd ->
  snd (ast_residual dat chunk zmask SAI__OK) = SAI__OK
  /\ res_sample (fst (ast_residual dat chunk zmask SAI__OK)) chunk idx ii
     = ast_loops zmask (map dat) ld qd (dims_of rdat) rd !! ii.
Proof.
  intros Hr Hall Hlk Hrd Hld Hqd. rewrite ast_residual_eq. cbn [fst snd].
  assert (Hrt : res dat !!! chunk = r)
    by (rewrite list_lookup_total_alt, Hr; reflexivity).
  rewrite Hrt.
  destruct (subarray_loop_ok zmask (map dat) (lut dat !!! chunk)
              (qua dat !!! chunk) (length r) (Dims 0 0 0 0) r (le_n _) Hall)
    as [Hs Hres].
  split; [exact Hs|].
  rewrite (res_sample_insert dat chunk idx ii r _ Hr).
  rewrite (Hres idx rdat (lookup_lt_Some _ _ _ Hlk) Hlk).
  unfold sub_result. rewrite Hrd, Hld, Hqd. reflexivity.
Qed.


End Residuals.

(** *** The claims about the component *)

Section Claims.

(** A sample for which the model value of lines 367-371 comes out
    as [VAL__BADD] leaves the component with the residual it came
    with. *)
Lemma res_sample_kept (dat : smfDIMMData) (chunk : nat)
    (kmap : AstKeyMap) (flags status : Z) (idx ii : nat) (ld : list Z) :
  let out := fst (smf_calcmodel_ast dat chunk kmap flags status) in
  pntr0 ((lut dat !!! chunk) !!! idx) = Some ld ->
  is_badd (model_value (ast_zmask dat chunk kmap flags status)
                       (map out) ld ii) = true ->
  res_sample out chunk idx ii = res_sample dat chunk idx ii.
Proof.
  cbv zeta. intros Hld.
  destruct (smf_calcmodel_ast_frame dat chunk kmap flags status)
    as (_ & _ & _ & Hmap & _). cbv zeta in Hmap. rewrite Hmap. clear Hmap.
  destruct (decide (status = SAI__OK)) as [->|Hs];
    [|rewrite smf_calcmodel_ast_bad by exact Hs; reflexivity].
  intros Hbad. rewrite smf_calcmodel_ast_ok.
  set (zmask := ast_zmask dat chunk kmap flags SAI__OK) in *.
  set (d1 := ast_before_mask dat chunk kmap flags SAI__OK) in *.
  destruct (ast_zero_mask_frame zmask d1) as (Hr & Hl & _ & Hm & _).
  destruct (ast_before_mask_frame dat chunk kmap flags SAI__OK)
    as (Hr' & Hl' & _). fold d1 in Hr', Hl'.
  destruct (ast_residual_sample_cases (ast_zero_mask zmask d1) chunk zmask
              (ast_check_gaussbg kmap SAI__OK) idx ii)
    as [Hsame | (rd & ld' & qd & dd & Hld' & _ & Hin & Hout)].
  - rewrite Hsame. apply res_sample_res. congruence.
  - rewrite Hout, <- (res_sample_res _ dat chunk idx ii (eq_trans Hr Hr')), Hin.
    rewrite Hl, Hl', Hld in Hld'. injection Hld' as <-.
    apply ast_loops_skip. unfold subtracts.
    rewrite Hm, Hbad. cbn [negb andb]. apply andb_false_r.
Qed.

(** C9.  Whatever the status, the flags and the mask, a sample whose
    LUT entry points at a pixel holding [VAL__BADD], in the map as the
    residual loop reads it and the component leaves it, comes out with
    the residual it came with: an undefined map value never reaches a
    residual. *)
Theorem ast_bad_map_value_skipped (dat : smfDIMMData) (chunk : nat)
    (kmap : AstKeyMap) (flags status : Z) (idx ii : nat) (ld : list Z) :
  let out := fst (smf_calcmodel_ast dat chunk kmap flags status) in
  pntr0 ((lut dat !!! chunk) !!! idx) = Some ld ->
  is_badd (map out !!! Z.to_nat (ld !!! ii)) = true ->
  res_sample out chunk idx ii = res_sample dat chunk idx ii.
Proof.
  cbv zeta. intros Hld Hbad.
  apply (res_sample_kept dat chunk kmap flags status idx ii ld Hld).
  apply model_value_bad. exact Hbad.
Qed.


(** C7, as the code has it.  On an invocation with a good status the
    map leaves the component filtered (undefined values zeroed, then
    the Gaussian high-pass filter of bandwidth AST.GAUSSBG) whenever
    the bandwidth is neither zero nor negative, unless ZERO_NOTLAST is
    set and the invocation is the last iteration.  With a zero
    bandwidth, or in that last iteration, the map is left as it came;
    so it is with a negative bandwidth, where line 232 has set the
    error status and the guard of line 272 keeps the filter from
    running. *)
Theorem ast_filter_applied (dat : smfDIMMData) (chunk : nat)
    (kmap : AstKeyMap) (flags : Z) :
  let out := fst (smf_calcmodel_ast dat chunk kmap flags SAI__OK) in
  (PrimFloat.ltb (GAUSSBG kmap) 0 = false ->
   PrimFloat.eqb (GAUSSBG kmap) 0 = false ->
   ~ (ZERO_NOTLAST kmap <> 0 /\ qual_has flags SMF__DIMM_LASTITER = true) ->
   map out
   = smf_filter_gauss (GAUSSBG kmap) (zero_bad (msize dat) (map dat)))
  /\ (PrimFloat.eqb (GAUSSBG kmap) 0 = true -> map out = map dat)
  /\ (ZERO_NOTLAST kmap <> 0 -> qual_has flags SMF__DIMM_LASTITER = true ->
      map out = map dat)
  /\ (PrimFloat.ltb (GAUSSBG kmap) 0 = true -> map out = map dat).
Proof.
  cbv zeta.
  destruct (smf_calcmodel_ast_frame dat chunk kmap flags SAI__OK)
    as (_ & _ & _ & Hmap & _). cbv zeta in Hmap. rewrite Hmap. clear Hmap.
  destruct (ast_flag_spikes_frame dat chunk kmap flags
              (ast_check_gaussbg kmap SAI__OK)) as (_ & _ & Hm & _ & _ & Hsz).
  unfold ast_before_mask, ast_constrain_map, ast_filter_due.
  unfold ast_check_gaussbg in *.
  destruct (PrimFloat.ltb (GAUSSBG kmap) 0) eqn:Hneg.
  - change (SAI__ERROR =? SAI__OK) with false. cbv iota.
    assert (Hsame : map (if negb (PrimFloat.eqb (GAUSSBG kmap) 0)
                            && negb (negb (ZERO_NOTLAST kmap =? 0)
                                     && qual_has flags SMF__DIMM_LASTITER)
                         then ast_flag_spikes dat chunk kmap flags SAI__ERROR
                         else ast_flag_spikes dat chunk kmap flags SAI__ERROR)
                    = map dat)
      by (destruct (_ && _); exact Hm).
    repeat split; intros; try discriminate; exact Hsame.
  - change (SAI__OK =? SAI__OK) with true. cbv iota.
    repeat split; try discriminate.
    + intros _ Hnz Hnot. rewrite Hnz. cbn [negb andb].
      destruct (ZERO_NOTLAST kmap =? 0) eqn:Hz; cbn [negb andb].
      * cbn [map set_map]. rewrite Hm, Hsz. reflexivity.
      * destruct (qual_has flags SMF__DIMM_LASTITER) eqn:Hl; cbn [negb].
        -- exfalso. apply Hnot. split; [|reflexivity].
           apply Z.eqb_neq. exact Hz.
        -- cbn [map set_map]. rewrite Hm, Hsz. reflexivity.
    + intros Hz. rewrite Hz. cbn [negb andb]. exact Hm.
    + intros Hz Hl. apply Z.eqb_neq in Hz. rewrite Hz, Hl.
      cbn [negb andb]. rewrite andb_false_r. exact Hm.
Qed.


(** Once the status is bad no iteration changes anything. *)
Lemma iterations_bad (maxiter n chunk : nat) (kmap : AstKeyMap)
    (dat : smfDIMMData) (status : Z) :
  status <> SAI__OK ->
  iterations maxiter n chunk kmap (dat, status) = (dat, status).
Proof.
  intros Hs. apply Z.eqb_neq in Hs.
  induction n as [|n IH]; [reflexivity|].
  cbn [iterations]. rewrite IH, Hs. reflexivity.
Qed.


(** C3, as the code has it.  When the mask provider hands back a
    mask, the zero bit of every map pixel is cleared and recomputed:
    it ends up set exactly when the value is undefined, or the
    variance is undefined or not positive, or the mask marks the
    pixel.  When no mask is handed back the map quality is left as it
    came. *)
Theorem ast_zero_bit_with_mask (dat : smfDIMMData) (chunk : nat)
    (kmap : AstKeyMap) (flags : Z) :
  SMF__MAPQ_ZERO <> 0 ->
  let out := fst (smf_calcmodel_ast dat chunk kmap flags SAI__OK) in
  (forall (zm : list Z) (i : nat),
     ast_zmask dat chunk kmap flags SAI__OK = Some zm ->
     (i < msize dat)%nat -> (i < length (mapqual dat))%nat ->
     qual_has (mapqual out !!! i) SMF__MAPQ_ZERO
     = (is_badd (map out !!! i) || is_badd (mapvar out !!! i)
        || PrimFloat.leb (mapvar out !!! i) 0 || negb ((zm !!! i) =? 0)))
  /\ (ast_zmask dat chunk kmap flags SAI__OK = None ->
      mapqual out = mapqual dat).
Proof.
  intros Hz. cbv zeta.
  destruct (smf_calcmodel_ast_frame dat chunk kmap flags SAI__OK)
    as (_ & Hv & _ & Hmap & _). cbv zeta in Hmap. rewrite Hmap, Hv.
  destruct (ast_before_mask_frame dat chunk kmap flags SAI__OK)
    as (_ & _ & Hq & Hv1 & Hsz).
  rewrite smf_calcmodel_ast_ok, ast_residual_eq. cbn [fst mapqual set_res].
  split.
  - intros zm i Hzm Hi Hlen. rewrite Hzm.
    rewrite ast_zero_mask_pixel by (rewrite ?Hsz, ?Hq; assumption).
    unfold zero_cond. rewrite Hv1. reflexivity.
  - intros Hnone. rewrite Hnone. exact Hq.
Qed.

(** C2, as the code has it.  On an invocation with a good status and
    a bandwidth that is not negative, in a chunk without NULL arrays
    and with strides that address each sample once, the sample of
    bolometer [i] at time slice [j] has the map value of its pixel
    subtracted from its residual exactly when its LUT entry is valid,
    the bolometer is not flagged bad, the pixel is not masked, the map
    value is not undefined and the sample is not excluded from model
    fitting; otherwise the residual is as it came.  Nothing is ever
    added back. *)
Theorem ast_residual_subtraction (dat : smfDIMMData) (chunk : nat)
    (kmap : AstKeyMap) (flags : Z) (idx i j : nat)
    (r : list (smfData float)) (rdat : smfData float) (rd : list float)
    (ld qd : list Z) :
  PrimFloat.ltb (GAUSSBG kmap) 0 = false ->
  let out := fst (smf_calcmodel_ast dat chunk kmap flags SAI__OK) in
  let zmask := ast_zmask dat chunk kmap flags SAI__OK in
  res dat !! chunk = Some r ->
  chunk_complete r (lut out !!! chunk) (qua out !!! chunk) = true ->
  r !! idx = Some rdat -> pntr0 rdat = Some rd ->
  pntr0 ((lut out !!! chunk) !!! idx) = Some ld ->
  pntr0 ((qua out !!! chunk) !!! idx) = Some qd ->
  layout_ok (dims_of rdat) ->
  (i < d_nbolo rdat)%nat -> (j < d_ntslice rdat)%nat ->
  let ii := (i * d_bstride rdat + j * d_tstride rdat)%nat in
  let p := Z.to_nat (ld !!! ii) in
  res_sample out chunk idx ii
  = (if negb ((ld !!! ii) =? VAL__BADI)
        && negb (qual_has (qd !!! (i * d_bstride rdat)%nat) SMF__Q_BADB)
        && negb (masked zmask (ld !!! ii))
        && negb (is_badd (map out !!! p))
        && negb (qual_has (qd !!! ii) SMF__Q_MOD)
     then fun x => PrimFloat.sub x (map out !!! p)
     else id) <$> rd !! ii.
Proof.
  intros Hpos. cbv zeta.
  destruct (smf_calcmodel_ast_frame dat chunk kmap flags SAI__OK)
    as (Hl & _ & _ & Hmap & Hqua). cbv zeta in Hmap, Hqua.
  rewrite Hl, Hmap, Hqua. clear Hl Hmap Hqua.
  rewrite smf_calcmodel_ast_ok.
  set (zmask := ast_zmask dat chunk kmap flags SAI__OK).
  set (d1 := ast_before_mask dat chunk kmap flags SAI__OK).
  destruct (ast_zero_mask_frame zmask d1) as (Hr2 & Hl2 & Hq2 & Hm2 & _).
  destruct (ast_before_mask_frame dat chunk kmap flags SAI__OK)
    as (Hr1 & Hl1 & _). fold d1 in Hr1, Hl1.
  assert (Hst : ast_check_gaussbg kmap SAI__OK = SAI__OK)
    by (unfold ast_check_gaussbg; rewrite Hpos; reflexivity).
  rewrite Hst.
  intros Hr Hall Hlk Hrd Hld Hqd Hlay Hi Hj.
  destruct (ast_residual_sample_exact (ast_zero_mask zmask d1) chunk zmask r
              idx (i * d_bstride rdat + j * d_tstride rdat) rdat rd ld qd)
    as [_ Hres]; try (rewrite ?Hr2, ?Hl2, ?Hq2, ?Hr1, ?Hl1; assumption).
  rewrite Hres, Hm2. clear Hres.
  pose proof (ast_loops_exact zmask (map d1) ld qd (dims_of rdat) rd i j
                Hlay Hi Hj) as Hex.
  cbv zeta in Hex. cbn [dims_of bstride tstride] in Hex. rewrite Hex.
  clear Hex. f_equal.
  unfold subtracts, sub_model, model_value.
  generalize (i * d_bstride rdat + j * d_tstride rdat)%nat. intros ii.
  destruct (masked zmask (ld !!! ii)); cbn [negb andb].
  - change (is_badd VAL__BADD) with true. cbn [negb andb].
    rewrite !andb_false_r. cbn [andb].
    destruct (negb (qual_has (qd !!! (i * d_bstride rdat)%nat) SMF__Q_BADB));
      reflexivity.
  - destruct (negb ((ld !!! ii) =? VAL__BADI)),
             (negb (qual_has (qd !!! (i * d_bstride rdat)%nat) SMF__Q_BADB));
      cbn [andb]; reflexivity.
Qed.


End Claims.

End WithLib.

(** *** The claims at the sample data *)


Lemma ast_bad_map_value_skipped_witness :
  res_sample (fst (smf_calcmodel_ast (L := lib_nomask) bad_pixel_dat 0
                     scenario_kmap 0 SAI__OK)) 0 0 0
  = res_sample bad_pixel_dat 0 0 0.
Proof.
  apply (@ast_bad_map_value_skipped lib_nomask bad_pixel_dat 0 scenario_kmap
           0 SAI__OK 0 0 [0]); reflexivity.
Defined.

Lemma ast_filter_applied_witness :
  map (fst (smf_calcmodel_ast (L := lib_nomask) bad_pixel_dat 0
              positive_kmap 0 SAI__OK))
  = [-2; -1]%float.
Proof.
  refine (eq_trans
            (proj1 (@ast_filter_applied lib_nomask bad_pixel_dat 0
                      positive_kmap 0) _ _ _) _).
  - reflexivity.
  - reflexivity.
  - vm_compute. intros [H _]. apply H. reflexivity.
  - vm_compute. reflexivity.
Defined.

(** A bandwidth of -1, which is not zero, in an iteration that is not
    the last: the map stays [3, 1], where the wording has it
    filtered. *)
Lemma filter_whenever_nonzero_refuted :
  ~ filter_whenever_nonzero (L := lib_nomask) (scenario_dat 1 4 1 1) 0
      negative_kmap 0.
Proof.
  unfold filter_whenever_nonzero. intros H. cbv zeta in H.
  assert (H1 : PrimFloat.eqb (GAUSSBG negative_kmap) 0 = false)
    by reflexivity.
  assert (H2 : ~ (ZERO_NOTLAST negative_kmap <> 0
                  /\ qual_has 0 (SMF__DIMM_LASTITER (SmfLib := lib_nomask))
                     = true))
    by (intros [Hz _]; apply Hz; reflexivity).
  specialize (H H1 H2).
  apply (f_equal (fun m => match m with
                           | x :: _ => PrimFloat.eqb x 3
                           | [] => false
                           end)) in H.
  vm_compute in H. discriminate H.
Qed.



Lemma ast_zero_bit_with_mask_witness :
  qual_has (mapqual (fst (smf_calcmodel_ast (L := lib_mask) bad_pixel_dat 0
                            scenario_kmap 0 SAI__OK)) !!! 1%nat) 1
  = true.
Proof.
  refine (eq_trans
            (proj1 (@ast_zero_bit_with_mask lib_mask bad_pixel_dat 0
                      scenario_kmap 0 _) [0; 1] 1%nat _ _ _) _).
  - vm_compute. discriminate.
  - reflexivity.
  - vm_compute. lia.
  - vm_compute. lia.
  - vm_compute. reflexivity.
Defined.

(** No mask in force and an undefined map value: the pixel is left
    without the zero bit. *)
Lemma zero_bit_recomputed_always_refuted :
  ~ zero_bit_recomputed_always (L := lib_nomask) bad_pixel_dat 0
      scenario_kmap 0.
Proof.
  unfold zero_bit_recomputed_always. intros H.
  specialize (H 0%nat ltac:(vm_compute; lia) ltac:(vm_compute; lia)).
  vm_compute in H. discriminate H.
Qed.

Lemma ast_residual_subtraction_witness :
  res_sample (fst (smf_calcmodel_ast (L := lib_mask) (scenario_dat 2 2 1 2) 0
                     scenario_kmap 0 SAI__OK)) 0 0 1
  = Some 4%float.
Proof.
  refine (eq_trans
            (@ast_residual_subtraction lib_mask (scenario_dat 2 2 1 2) 0
               scenario_kmap 0 0 1 0
               [SmfData (Some [5; 7; 2; 4]%float) 2 2 1 2]
               (SmfData (Some [5; 7; 2; 4]%float) 2 2 1 2)
               [5; 7; 2; 4]%float [0; 0; 1; 1] [0; 0; 0; 0]
               _ _ _ _ _ _ _ _ _ _) _).
  - reflexivity.
  - reflexivity.
  - reflexivity.
  - reflexivity.
  - reflexivity.
  - reflexivity.
  - reflexivity.
  - apply layout_ok_tordered.
  - vm_compute. lia.
  - vm_compute. lia.
  - vm_compute. reflexivity.
Defined.

(** Three invocations at which the wording fails.  No mask in force,
    clean quality, a valid LUT entry, and a map value that is
    undefined: the residual stays 5, where the wording has the map
    value subtracted.  A negative bandwidth: the residual stays 5,
    where the wording has it 2.  A subarray without residual data
    ahead of the sample's own: the residual stays 5, where the wording
    has it 2. *)
Lemma subtracts_unless_masked_refuted :
  ~ subtracts_unless_masked_or_excluded (L := lib_nomask) bad_pixel_dat 0
      scenario_kmap 0 0 0 0
  /\ ~ subtracts_unless_masked_or_excluded (L := lib_nomask)
         (scenario_dat 1 4 1 1) 0 negative_kmap 0 0 0 0
  /\ ~ subtracts_unless_masked_or_excluded (L := lib_nomask) null_first_dat 0
         scenario_kmap 0 1 0 0.
Proof.
  split; [|split].
  - unfold subtracts_unless_masked_or_excluded. intros H.
    specialize (H (SmfData (Some [5]%float) 1 1 1 1) [5]%float [0] [0]
                  eq_refl eq_refl eq_refl eq_refl
                  ltac:(vm_compute; lia) ltac:(vm_compute; lia)).
    cbv zeta in H.
    specialize (H ltac:(vm_compute; discriminate) eq_refl).
    vm_compute in H.
    apply (f_equal (fun o => match o with
                             | Some x => PrimFloat.eqb x 5
                             | None => false
                             end)) in H.
    vm_compute in H. discriminate H.
  - unfold subtracts_unless_masked_or_excluded. intros H.
    specialize (H (SmfData (Some [5; 7; 2; 4]%float) 1 4 1 1)
                  [5; 7; 2; 4]%float [0; 0; 1; 1] [0; 0; 0; 0]
                  eq_refl eq_refl eq_refl eq_refl
                  ltac:(vm_compute; lia) ltac:(vm_compute; lia)).
    cbv zeta in H.
    specialize (H ltac:(vm_compute; discriminate) eq_refl).
    vm_compute in H.
    apply (f_equal (fun o => match o with
                             | Some x => PrimFloat.eqb x 5
                             | None => false
                             end)) in H.
    vm_compute in H. discriminate H.
  - unfold subtracts_unless_masked_or_excluded. intros H.
    specialize (H (SmfData (Some [5]%float) 1 1 1 1) [5]%float [0] [0]
                  eq_refl eq_refl eq_refl eq_refl
                  ltac:(vm_compute; lia) ltac:(vm_compute; lia)).
    cbv zeta in H.
    specialize (H ltac:(vm_compute; discriminate) eq_refl).
    vm_compute in H.
    apply (f_equal (fun o => match o with
                             | Some x => PrimFloat.eqb x 5
                             | None => false
                             end)) in H.
    vm_compute in H. discriminate H.
Qed.

End AstProps.

(** ** Properties of the range statistics *)

Module StatsProps.
Import Stats Worded Examples.

Section WithLib.
Context `{L : StatsLib}.

Lemma stats_range_single (nsamp lo : Z) :
  lo <> 0 -> stats_range nsamp lo lo = None.
Proof.
  intros Hlo. unfold stats_range, stats_swap.
  destruct (nsamp <=? lo); [reflexivity|].
  rewrite Z.ltb_irrefl. apply Z.eqb_neq in Hlo. rewrite Hlo. cbn [andb].
  rewrite Z.eqb_refl. reflexivity.
Qed.

Lemma stats_range_whole_single : stats_range 1 0 0 = None.
Proof.
  unfold stats_range, stats_swap, wrap. cbn. rewrite Zmod_0_l. reflexivity.
Qed.

Lemma smf_calc_stats_no_range (data : smfData) (mode : string)
    (index lo hi : Z) (mean stdev : float) :
  (forall nsamp, stats_range nsamp lo hi = None) ->
  smf_calc_stats data mode index lo hi mean stdev SAI__OK = stats_fail.
Proof.
  intros Hnone. unfold smf_calc_stats. cbn [negb Z.eqb SAI__OK].
  destruct (negb (ndims data =? 3)); [reflexivity|].
  destruct (stats_axes data mode) as [[[nmax nsamp] nbol]|]; [|reflexivity].
  destruct (nmax <=? index); [reflexivity|].
  rewrite Hnone. reflexivity.
Qed.

(** C5, as the code has it.  A range that comes down to a single
    point, [lo = hi] other than 0, or the whole-range default [0, 0]
    on an axis of one sample, is an error of the routine: it returns
    with SAI__ERROR, the mean and the standard deviation both
    [VAL__BADD], no statistics computed. *)
Theorem smf_calc_stats_single_point (data : smfData) (mode : string)
    (index lo : Z) (mean stdev : float) :
  lo <> 0
  \/ (lo = 0 /\ exists nmax nbol, stats_axes data mode = Some (nmax, 1, nbol)) ->
  smf_calc_stats data mode index lo lo mean stdev SAI__OK
  = (SAI__ERROR, VAL__BADD, VAL__BADD).
Proof.
  intros [Hlo | (-> & nmax & nbol & Hax)].
  - apply smf_calc_stats_no_range. intros nsamp.
    apply stats_range_single. exact Hlo.
  - unfold smf_calc_stats. cbn [negb Z.eqb SAI__OK].
    destruct (negb (ndims data =? 3)); [reflexivity|].
    rewrite Hax. destruct (nmax <=? index); [reflexivity|].
    rewrite stats_range_whole_single. reflexivity.
Qed.

Lemma to_int_small (x : Z) : 0 <= x < 2 ^ 31 -> to_int x = x.
Proof. intros Hx. unfold to_int. rewrite Z.mod_small; lia. Qed.

Lemma wrap_small (x : Z) : 31 <= dim_bits -> 0 <= x < 2 ^ 31 -> wrap x = x.
Proof.
  intros Hb Hx. unfold wrap. apply Z.mod_small.
  assert (2 ^ 31 <= 2 ^ dim_bits) by (apply Z.pow_le_mono_r; lia). lia.
Qed.

Lemma stats_range_sym (nsamp lo hi : Z) :
  31 <= dim_bits -> 0 <= lo < 2 ^ 31 -> 0 <= hi < 2 ^ 31 ->
  stats_range nsamp lo hi = stats_range nsamp hi lo.
Proof.
  intros Hb Hlo Hhi. unfold stats_range, stats_swap.
  destruct (Z.leb_spec nsamp lo), (Z.leb_spec nsamp hi); try reflexivity.
  destruct (Z.ltb_spec hi lo), (Z.ltb_spec lo hi); try lia.
  - rewrite (to_int_small lo), (wrap_small lo) by lia. reflexivity.
  - rewrite (to_int_small hi), (wrap_small hi) by lia. reflexivity.
  - replace hi with lo by lia. reflexivity.
Qed.

(** Bounds that fit an [int] are exchanged faithfully, and the routine
    does not tell the two orders apart. *)
Lemma smf_calc_stats_symmetric_int (data : smfData) (mode : string)
    (index lo hi : Z) (mean stdev : float) :
  31 <= dim_bits -> 0 <= lo < 2 ^ 31 -> 0 <= hi < 2 ^ 31 ->
  bounds_symmetric data mode index lo hi mean stdev.
Proof.
  intros Hb Hlo Hhi. unfold bounds_symmetric, smf_calc_stats.
  cbn [negb Z.eqb SAI__OK].
  destruct (negb (ndims data =? 3)); [reflexivity|].
  destruct (stats_axes data mode) as [[[nmax nsamp] nbol]|]; [|reflexivity].
  destruct (nmax <=? index); [reflexivity|].
  rewrite (stats_range_sym nsamp lo hi Hb Hlo Hhi). reflexivity.
Qed.

End WithLib.

Lemma smf_calc_stats_single_point_witness :
  smf_calc_stats (L := lib64) (ramp 10) "b" 0 3 3 0 0 SAI__OK
  = (SAI__ERROR, VAL__BADD, VAL__BADD).
Proof.
  apply (@smf_calc_stats_single_point lib64 (ramp 10) "b" 0 3 0 0)%float.
  left. discriminate.
Defined.

(** Samples 3 to 3 of ten: the routine returns with the error status. *)
Lemma single_point_not_fatal_refuted :
  ~ single_point_not_fatal (L := lib64) (ramp 10) "b" 0 3 0 0.
Proof.
  unfold single_point_not_fatal. vm_compute. discriminate.
Qed.

Lemma smf_calc_stats_symmetric_int_witness :
  bounds_symmetric (L := lib64) (ramp 10) "b" 0 7 2 0 0.
Proof.
  apply (@smf_calc_stats_symmetric_int lib64 (ramp 10) "b" 0 7 2 0 0)%float.
  - vm_compute. discriminate.
  - lia.
  - lia.
Defined.

(** C10.  On a 64-bit platform, over 2^31 + 2 time slices, the bounds
    (2^31, 2^31 - 5) pass through [int temp] and come out as the range
    2^31 - 5 .. 2^64 - 2^31, whose buffer cannot be had: the routine
    fails.  The same bounds given as (2^31 - 5, 2^31) select six
    samples and succeed.  The two orders are told apart. *)
Theorem smf_calc_stats_wide_bounds_differ :
  stats_range (L := lib64) (2 ^ 31 + 2) (2 ^ 31) (2 ^ 31 - 5)
  = Some (2 ^ 31 - 5, 2 ^ 64 - 2 ^ 31)
  /\ stats_range (L := lib64) (2 ^ 31 + 2) (2 ^ 31 - 5) (2 ^ 31)
     = Some (2 ^ 31 - 5, 2 ^ 31)
  /\ smf_calc_stats (L := lib64) (ramp (2 ^ 31 + 2)) "b" 0
       (2 ^ 31) (2 ^ 31 - 5) 0 0 SAI__OK
     = (SAI__ERROR, VAL__BADD, VAL__BADD)
  /\ fst (fst (smf_calc_stats (L := lib64) (ramp (2 ^ 31 + 2)) "b" 0
                 (2 ^ 31 - 5) (2 ^ 31) 0 0 SAI__OK))
     = SAI__OK
  /\ ~ bounds_symmetric (L := lib64) (ramp (2 ^ 31 + 2)) "b" 0
         (2 ^ 31) (2 ^ 31 - 5) 0 0.
Proof.
  assert (H1 : smf_calc_stats (L := lib64) (ramp (2 ^ 31 + 2)) "b" 0
                 (2 ^ 31) (2 ^ 31 - 5) 0 0 SAI__OK
               = (SAI__ERROR, VAL__BADD, VAL__BADD))
    by (vm_compute; reflexivity).
  assert (H2 : fst (fst (smf_calc_stats (L := lib64) (ramp (2 ^ 31 + 2)) "b" 0
                           (2 ^ 31 - 5) (2 ^ 31) 0 0 SAI__OK)) = SAI__OK)
    by (vm_compute; reflexivity).
  repeat split; try (vm_compute; reflexivity); try assumption.
  unfold bounds_symmetric. intros Heq. rewrite H1 in Heq.
  rewrite <- Heq in H2. discriminate H2.
Qed.

End StatsProps.

(** ** Properties of the exposure-time map *)

Module MakemapProps.
Import Makemap Examples.

Section WithLib.
Context `{L : MakemapLib}.





End WithLib.

(** Four pixels, the second without a map value, a step time of half
    a second. *)
Lemma makemap_exposure_sample :
  makemap_exposure (L := lib_median) SAI__OK 0.5
    [1; VAL__BADD; 2; 3]%float [4; 0; 2; 6] 4 [0; 0; 0; 0]%float
  = Exposure [2; VAL__BADD; 1; 3]%float 3 1 (Some 1%float).
Proof. vm_compute. reflexivity. Qed.

End MakemapProps.

(** ** The exit status, the map handed to the filter and the mask step *)

Module AstFrame.
Import Ast Examples AstProps.

Section WithLib.
Context `{L : SmfLib}.

(** The status after [n] subarrays: the first NULL pointer sets it to
    SAI__ERROR, and nothing sets it back. *)
Lemma subarray_loop_status (zmask : option (list Z)) (m : list float)
    (l q : smfArray Z) (n : nat) (s : Z) (d : dims) (r : smfArray float) :
  fst (fst (for_loop n (ast_subarray zmask m l q) (s, d, r)))
  = if forallb (fun idx => has_data (r !!! idx) && has_data (l !!! idx)
                           && has_data (q !!! idx)) (seq 0 n)
    then s else SAI__ERROR.
Proof.
  induction n as [|n IH]; [reflexivity|].
  rewrite for_loop_S, seq_S, forallb_app. cbn [forallb Nat.add].
  rewrite andb_true_r.
  pose proof (subarray_loop_above zmask m l q n n (s, d, r) (le_n n)) as Hsame.
  destruct (for_loop n (ast_subarray zmask m l q) (s, d, r)) as [[s' d'] r'].
  cbn [fst snd] in *.
  assert (Htot : r' !!! n = r !!! n)
    by (rewrite !list_lookup_total_alt, Hsame; reflexivity).
  unfold ast_subarray. rewrite Htot. unfold has_data at 4 5 6.
  destruct (pntr0 (r !!! n)); [|rewrite andb_false_r; reflexivity].
  destruct (pntr0 (l !!! n)); [|rewrite andb_false_r; reflexivity].
  destruct (pntr0 (q !!! n)); [|rewrite andb_false_r; reflexivity].
  cbn [fst andb]. rewrite andb_true_r. exact IH.
Qed.

(** The status the component leaves when it is entered with a good
    one: SAI__ERROR if the bandwidth GAUSSBG is negative or a
    subarray of the chunk has a NULL residual, LUT or quality
    pointer, SAI__OK otherwise. *)
Theorem smf_calcmodel_ast_status (dat : smfDIMMData) (chunk : nat)
    (kmap : AstKeyMap) (flags : Z) :
  let d1 := ast_before_mask dat chunk kmap flags SAI__OK in
  snd (smf_calcmodel_ast dat chunk kmap flags SAI__OK)
  = if PrimFloat.ltb (GAUSSBG kmap) 0 then SAI__ERROR
    else if chunk_complete (res dat !!! chunk) (lut dat !!! chunk)
                           (qua d1 !!! chunk)
         then SAI__OK else SAI__ERROR.
Proof.
  cbv zeta. rewrite smf_calcmodel_ast_ok, ast_residual_eq. cbn [snd].
  rewrite subarray_loop_status.
  destruct (ast_zero_mask_frame (ast_zmask dat chunk kmap flags SAI__OK)
              (ast_before_mask dat chunk kmap flags SAI__OK))
    as (Hr & Hl & Hq & _).
  destruct (ast_before_mask_frame dat chunk kmap flags SAI__OK)
    as (Hr' & Hl' & _).
  rewrite Hr, Hl, Hq, Hr', Hl'. unfold chunk_complete, ast_check_gaussbg.
  destruct (PrimFloat.ltb (GAUSSBG kmap) 0); [|reflexivity].
  destruct (forallb _ _); reflexivity.
Qed.

(** Lines 284-286 leave no undefined value among the pixels of the
    map, and change nothing else. *)
Theorem zero_bad_defined (msz : nat) (m : list float) :
  Forall (fun x => is_badd x = false) (take msz (zero_bad msz m))
  /\ length (zero_bad msz m) = length m
  /\ (forall (i : nat) (x : float),
        m !! i = Some x -> is_badd x = false ->
        zero_bad msz m !! i = Some x).
Proof.
  unfold zero_bad. split; [|split].
  - apply Forall_lookup. intros i x Hx.
    apply lookup_take_Some in Hx as [Hx Hi].
    rewrite for_loop_alter_lookup in Hx. case_decide; [|lia].
    destruct (m !! i) as [y|]; [|discriminate]. cbn in Hx.
    injection Hx as <-. fold (is_badd y).
    destruct (is_badd y) eqn:Hy; [reflexivity | exact Hy].
  - apply for_loop_alter_length.
  - intros i x Hx Hbad. rewrite for_loop_alter_lookup, Hx.
    case_decide; [|reflexivity]. cbn. fold (is_badd x).
    rewrite Hbad. reflexivity.
Qed.

(** The mask step of lines 311-328, run again on its own result with
    the same mask, changes nothing. *)
Theorem ast_zero_mask_idempotent (zmask : option (list Z))
    (dat : smfDIMMData) :
  ast_zero_mask zmask (ast_zero_mask zmask dat) = ast_zero_mask zmask dat.
Proof.
  destruct zmask as [zm|]; [|reflexivity].
  unfold ast_zero_mask, set_mapqual.
  cbn [res lut qua noi map hitsmap mapqual mapvar mapweight mapweightsq msize].
  f_equal. apply list_eq. intros i.
  rewrite !flag_zero_lookup, !clear_zero_lookup, !flag_zero_lookup,
    !clear_zero_lookup.
  case_decide; [|reflexivity].
  destruct (mapqual dat !! i) as [x|]; [|reflexivity]. cbn. f_equal.
  destruct (zero_cond _ _ _ _).
  - rewrite land_lor_lnot, land_clear_lnot. reflexivity.
  - rewrite land_clear_lnot. reflexivity.
Qed.

End WithLib.
End AstFrame.

(** ** The samples behind the statistics *)

Module StatsRangeProps.
Import Stats Examples StatsRange StatsProps.

Section WithLib.
Context `{L : StatsLib}.

Lemma stats_range_proper (nsamp lo hi : Z) :
  0 <= lo < hi -> hi < nsamp -> stats_range nsamp lo hi = Some (lo, hi).
Proof.
  intros Hlo Hhi. unfold stats_range, stats_swap.
  destruct (Z.leb_spec nsamp lo); [lia|].
  destruct (Z.leb_spec nsamp hi); [lia|].
  destruct (Z.ltb_spec hi lo); [lia|].
  destruct (Z.eqb_spec hi 0); [lia|]. rewrite andb_false_r.
  destruct (Z.eqb_spec lo hi); [lia | reflexivity].
Qed.

Lemma wrap_id (x : Z) : 0 <= x < 2 ^ dim_bits -> wrap x = x.
Proof. intros Hx. unfold wrap. apply Z.mod_small. exact Hx. Qed.

Lemma stats_copy_sources {A : Type} (a : Z -> A) (mode : string)
    (nbol index lo hi total : Z) :
  0 <= nbol -> 0 <= index -> 0 <= lo -> total < 2 ^ dim_bits ->
  (forall k, lo <= k <= hi -> 0 <= stats_source mode nbol index k < total) ->
  (mode_is "b" mode = false -> 0 <= nbol * index < total) ->
  (mode_is "b" mode = true -> forall k, lo <= k <= hi -> k * nbol < total) ->
  (mode_is "b" mode = false -> forall k, lo <= k <= hi -> k < total) ->
  stats_copy a (if mode_is "b" mode then index else wrap (nbol * index))
             (if mode_is "b" mode then nbol else 1) lo (hi - lo + 1)
  = List.map (fun k => a (stats_source mode nbol index k)) (zrange lo hi).
Proof.
  intros Hn Hi Hlo Ht Hsrc Hoff Hb Hnb. unfold stats_copy, zrange.
  rewrite List.map_map. apply List.map_ext_in. intros i Hin.
  apply in_seq in Hin. f_equal.
  assert (Hk : lo <= lo + Z.of_nat i <= hi) by lia.
  specialize (Hsrc _ Hk). unfold stats_source in *.
  destruct (mode_is "b" mode).
  - specialize (Hb eq_refl _ Hk).
    rewrite (wrap_id ((lo + Z.of_nat i) * nbol)) by nia.
    apply wrap_id. lia.
  - specialize (Hoff eq_refl). specialize (Hnb eq_refl _ Hk).
    rewrite Z.mul_1_r, (wrap_id (nbol * index)) by lia.
    rewrite (wrap_id (lo + Z.of_nat i)) by lia.
    apply wrap_id. lia.
Qed.

(** A range [lo < hi] within the axis, for a valid index into an
    array that [dim_t] can address: the statistics are those of the
    samples [lo .. hi], both included, each read from its place in
    the data array, and every place read lies within the array. *)
Theorem smf_calc_stats_range (data : smfData) (mode : string)
    (index lo hi : Z) (mean stdev : float) (d0 d1 d2 : Z) (buf : buffer)
    (nmax nsamp nbol : Z) :
  ndims data = 3 -> dims data = [d0; d1; d2] -> pntr0 data = Some buf ->
  0 <= d0 -> 0 <= d1 -> 0 <= d2 -> d0 * d1 * d2 < 2 ^ dim_bits ->
  stats_axes data mode = Some (nmax, nsamp, nbol) ->
  0 <= index < nmax -> 0 <= lo < hi -> hi < nsamp ->
  smf_malloc (hi - lo + 1) (smf_dtype_size (dtype data)) = (true, SAI__OK) ->
  let src := stats_source mode (d0 * d1) index in
  smf_calc_stats data mode index lo hi mean stdev SAI__OK
  = match dtype data with
    | SMF__DOUBLE =>
        kpgStatd (List.map (fun k => as_double buf (src k)) (zrange lo hi))
    | SMF__INTEGER =>
        kpgStati (List.map (fun k => as_int buf (src k)) (zrange lo hi))
    | _ => (SAI__ERROR, VAL__BADD, VAL__BADD)
    end
  /\ Forall (fun k => 0 <= src k < d0 * d1 * d2) (zrange lo hi).
Proof.
  intros Hnd Hdims Hbuf H0 H1 H2 Htot Hax Hidx Hlo Hhi Hmal src.
  assert (Hprod : 0 <= d0 * d1) by nia.
  assert (Hd2 : 1 <= d2 /\ 1 <= d0 * d1 /\ nbol = d0 * d1
                /\ (mode_is "b" mode = true -> nmax = d0 * d1 /\ nsamp = d2)
                /\ (mode_is "b" mode = false -> nmax = d2 /\ nsamp = d0 * d1)).
  { unfold stats_axes in Hax. rewrite Hdims in Hax. cbn [nth] in Hax.
    assert (Hw : forall x, wrap x = x \/ 2 ^ dim_bits <= x \/ x < 0).
    { intros x. destruct (Z_lt_le_dec x 0); [lia|].
      destruct (Z_lt_le_dec x (2 ^ dim_bits)); [|lia].
      left. apply wrap_id. lia. }
    destruct (mode_is "b" mode).
    - injection Hax as <- <- <-.
      assert (wrap (d0 * d1) < 2 ^ dim_bits)
        by (unfold wrap; apply Z.mod_pos_bound; lia).
      assert (1 <= d0 * d1) by (destruct (Hw (d0 * d1)); nia).
      assert (wrap (d0 * d1) = d0 * d1) by (apply wrap_id; nia).
      repeat split; try lia; discriminate.
    - destruct (mode_is "t" mode); [|discriminate].
      injection Hax as <- <- <-.
      assert (1 <= d0 * d1) by (destruct (Hw (d0 * d1)); nia).
      assert (wrap (d0 * d1) = d0 * d1) by (apply wrap_id; nia).
      repeat split; try lia; discriminate. }
  destruct Hd2 as (Hd2 & Hp1 & -> & Hb & Hnb).
  assert (Hsrc : forall k, lo <= k <= hi -> 0 <= src k < d0 * d1 * d2).
  { intros k Hk. subst src. unfold stats_source.
    destruct (mode_is "b" mode).
    - destruct (Hb eq_refl) as [-> ->]. nia.
    - destruct (Hnb eq_refl) as [-> ->]. nia. }
  split.
  - unfold smf_calc_stats. cbn [negb Z.eqb SAI__OK].
    rewrite Hnd, Hax. cbn [Z.eqb Pos.eqb negb].
    destruct (Z.leb_spec nmax index); [lia|].
    rewrite stats_range_proper by lia.
    assert (Hnpts : wrap (hi - lo + 1) = hi - lo + 1).
    { apply wrap_id.
      destruct (mode_is "b" mode);
        [destruct (Hb eq_refl) as [-> ->] | destruct (Hnb eq_refl) as [-> ->]];
        nia. }
    rewrite Hnpts, Hmal. cbn [negb]. rewrite Hbuf.
    assert (Hcopy : forall (A : Type) (a : Z -> A),
      stats_copy a (if mode_is "b" mode then index else wrap (d0 * d1 * index))
        (if mode_is "b" mode then d0 * d1 else 1) lo (hi - lo + 1)
      = List.map (fun k => a (src k)) (zrange lo hi)).
    { intros A a. apply (stats_copy_sources a mode (d0 * d1) index lo hi
                           (d0 * d1 * d2)); try lia.
      - exact Hsrc.
      - intros Hm. destruct (Hnb Hm) as [-> ->]. nia.
      - intros Hm k Hk. destruct (Hb Hm) as [-> ->]. nia.
      - intros Hm k Hk. destruct (Hnb Hm) as [-> ->]. nia. }
    destruct (mode_is "b" mode); cbn [Z.eqb SAI__OK];
      destruct (dtype data); try reflexivity; rewrite Hcopy; reflexivity.
  - apply Forall_forall. intros k Hk. apply Hsrc.
    unfold zrange in Hk. apply list_elem_of_In, in_map_iff in Hk.
    destruct Hk as (i & <- & Hi). apply in_seq in Hi. lia.
Qed.

(** The bounds (0, 0) stand for the whole axis: the routine does
    with them what it does with the bounds (0, nsamp - 1). *)
Theorem smf_calc_stats_whole_axis (data : smfData) (mode : string)
    (index : Z) (mean stdev : float) (nmax nsamp nbol : Z) :
  stats_axes data mode = Some (nmax, nsamp, nbol) ->
  0 <= nsamp < 2 ^ dim_bits ->
  smf_calc_stats data mode index 0 0 mean stdev SAI__OK
  = smf_calc_stats data mode index 0 (nsamp - 1) mean stdev SAI__OK.
Proof.
  intros Hax Hns. unfold smf_calc_stats. cbn [negb Z.eqb SAI__OK].
  destruct (negb (ndims data =? 3)); [reflexivity|].
  rewrite Hax. destruct (nmax <=? index); [reflexivity|].
  assert (Hr : stats_range nsamp 0 0 = stats_range nsamp 0 (nsamp - 1)).
  { unfold stats_range, stats_swap.
    destruct (Z.leb_spec nsamp 0); [reflexivity|].
    destruct (Z.leb_spec nsamp (nsamp - 1)); [lia|].
    destruct (Z.ltb_spec (nsamp - 1) 0); [lia|].
    cbn [Z.ltb Z.compare Z.eqb andb].
    rewrite (wrap_id (nsamp - 1)) by lia.
    destruct (Z.eqb_spec (nsamp - 1) 0) as [->|]; [|reflexivity].
    reflexivity. }
  rewrite Hr. reflexivity.
Qed.

End WithLib.

(** Samples 2 to 7 of a bolometer observed for ten time slices. *)
Lemma smf_calc_stats_range_witness :
  smf_calc_stats (L := lib64) (ramp 10) "b" 0 2 7 0 0 SAI__OK
  = @kpgStatd lib64
      (List.map (fun k => as_double ramp_buffer
                            (stats_source "b" (1 * 1) 0 k)) (zrange 2 7)).
Proof.
  refine (proj1 (@smf_calc_stats_range lib64 (ramp 10) "b" 0 2 7 0 0
                   1 1 10 ramp_buffer 1 10 1 _ _ _ _ _ _ _ _ _ _ _ _)).
  - reflexivity.
  - reflexivity.
  - reflexivity.
  - lia.
  - lia.
  - lia.
  - vm_compute. reflexivity.
  - reflexivity.
  - lia.
  - lia.
  - lia.
  - reflexivity.
Defined.

Lemma smf_calc_stats_whole_axis_witness :
  smf_calc_stats (L := lib64) (ramp 10) "b" 0 0 0 0 0 SAI__OK
  = smf_calc_stats (L := lib64) (ramp 10) "b" 0 0 (10 - 1) 0 0 SAI__OK.
Proof.
  apply (@smf_calc_stats_whole_axis lib64 (ramp 10) "b" 0 0 0 1 10 1)%float.
  - reflexivity.
  - split; [lia | vm_compute; reflexivity].
Defined.

End StatsRangeProps.

(** ** Properties of the REBIN exposure time *)

Module RebinProps.
Import Rebin.

Lemma rebin_pixel_arrays (steptime : float) (map weights3d : list float)
    (nxy i : nat) (st : tile_exposure) :
  t_exp_time (rebin_pixel steptime map weights3d nxy i st)
  = <[i := if is_badd (map !!! i) then VAL__BADD
           else PrimFloat.mul steptime (weights3d !!! i)]> (t_exp_time st)
  /\ t_weights (rebin_pixel steptime map weights3d nxy i st)
     = <[i := if is_badd (map !!! i) then VAL__BADD
              else weights3d !!! (i + nxy)%nat]> (t_weights st).
Proof. unfold rebin_pixel. destruct (is_badd (map !!! i)); split; reflexivity. Qed.

Lemma rebin_loop_lengths (steptime : float) (map weights3d : list float)
    (nxy n : nat) (st : tile_exposure) :
  length (t_exp_time (for_loop n (rebin_pixel steptime map weights3d nxy) st))
  = length (t_exp_time st)
  /\ length (t_weights (for_loop n (rebin_pixel steptime map weights3d nxy) st))
     = length (t_weights st).
Proof.
  induction n as [|n [IH1 IH2]]; [split; reflexivity|].
  rewrite for_loop_S.
  destruct (rebin_pixel_arrays steptime map weights3d nxy n
              (for_loop n (rebin_pixel steptime map weights3d nxy) st))
    as [-> ->].
  rewrite !length_insert. split; assumption.
Qed.

Lemma rebin_loop_lookup (steptime : float) (map weights3d : list float)
    (nxy n : nat) (st : tile_exposure) (k : nat) :
  t_exp_time (for_loop n (rebin_pixel steptime map weights3d nxy) st) !! k
  = (if decide (k < n /\ k < length (t_exp_time st))%nat
     then Some (if is_badd (map !!! k) then VAL__BADD
                else PrimFloat.mul steptime (weights3d !!! k))
     else t_exp_time st !! k)
  /\ t_weights (for_loop n (rebin_pixel steptime map weights3d nxy) st) !! k
     = (if decide (k < n /\ k < length (t_weights st))%nat
        then Some (if is_badd (map !!! k) then VAL__BADD
                   else weights3d !!! (k + nxy)%nat)
        else t_weights st !! k).
Proof.
  induction n as [|n [IH1 IH2]].
  - rewrite for_loop_0. split; case_decide; (lia || reflexivity).
  - rewrite for_loop_S.
    destruct (rebin_pixel_arrays steptime map weights3d nxy n
                (for_loop n (rebin_pixel steptime map weights3d nxy) st))
      as [-> ->].
    destruct (rebin_loop_lengths steptime map weights3d nxy n st)
      as [Hl1 Hl2].
    rewrite !list_lookup_insert, Hl1, Hl2, IH1, IH2.
    split; repeat case_decide; try reflexivity; try (exfalso; lia);
      destruct_and!; subst; reflexivity.
Qed.

(** With a good status, each pixel of the tile gets
    [VAL__BADD] for its exposure time and its weight where the map is
    undefined; elsewhere the exposure time is the step time multiplied
    by the first plane of the 3-D weights, and the weight is the
    second plane.  Nothing else of the two arrays changes. *)
Theorem rebin_exposure_pixels (steptime : float) (map weights3d : list float)
    (nxy : nat) (st : tile_exposure) :
  let out := rebin_exposure SAI__OK steptime map weights3d nxy st in
  (forall i : nat, (i < nxy)%nat ->
     (i < length (t_exp_time st))%nat -> (i < length (t_weights st))%nat ->
     t_exp_time out !! i
     = Some (if is_badd (map !!! i) then VAL__BADD
             else PrimFloat.mul steptime (weights3d !!! i))
     /\ t_weights out !! i
        = Some (if is_badd (map !!! i) then VAL__BADD
                else weights3d !!! (i + nxy)%nat))
  /\ (forall i : nat, (nxy <= i)%nat ->
        t_exp_time out !! i = t_exp_time st !! i
        /\ t_weights out !! i = t_weights st !! i)
  /\ length (t_exp_time out) = length (t_exp_time st)
  /\ length (t_weights out) = length (t_weights st).
Proof.
  cbv zeta. unfold rebin_exposure. change (SAI__OK =? SAI__OK) with true.
  cbv iota. split; [|split].
  - intros i Hi H1 H2.
    destruct (rebin_loop_lookup steptime map weights3d nxy nxy st i)
      as [-> ->].
    split; case_decide; (reflexivity || lia).
  - intros i Hi.
    destruct (rebin_loop_lookup steptime map weights3d nxy nxy st i)
      as [-> ->].
    split; case_decide; (reflexivity || lia).
  - apply rebin_loop_lengths.
Qed.

End RebinProps.

(** ** Properties of the string and logical-array routines *)

Module CnfProps.
Import Cnf.

(** A loop that stores [g i] in element [i]. *)
Lemma for_loop_insert_lookup {A : Type} (g : nat -> A) (n : nat)
    (a : list A) (k : nat) :
  for_loop n (fun i d => <[i := g i]> d) a !! k
  = if decide (k < n /\ k < length a)%nat then Some (g k) else a !! k.
Proof.
  assert (Hlen : forall n, length (for_loop n (fun i d => <[i := g i]> d) a)
                           = length a).
  { intros m. induction m as [|m IH]; [reflexivity|].
    rewrite for_loop_S, length_insert. exact IH. }
  induction n as [|n IH].
  - rewrite for_loop_0. case_decide; [lia | reflexivity].
  - rewrite for_loop_S, list_lookup_insert, Hlen, IH.
    repeat case_decide; try reflexivity; try (exfalso; lia).
    destruct_and!. subst. reflexivity.
Qed.

Lemma for_from_insert_lookup {A : Type} (g : nat -> A) (a b : nat)
    (l : list A) (k : nat) :
  for_from a b (fun i d => <[i := g i]> d) l !! k
  = if decide (a <= k /\ k < b /\ k < length l)%nat then Some (g k)
    else l !! k.
Proof.
  unfold for_from. remember (b - a)%nat as n eqn:Hn.
  revert b Hn. induction n as [|n IH]; intros b Hn.
  - cbn. case_decide; [lia | reflexivity].
  - rewrite seq_S, fold_left_app. cbn [fold_left].
    assert (Hlen : forall m (l0 : list A),
              length (fold_left (fun s i => <[i := g i]> s) (seq a m) l0)
              = length l0).
    { intros m. induction m as [|m IHm]; intros l0; [reflexivity|].
      rewrite seq_S, fold_left_app. cbn [fold_left].
      rewrite length_insert. apply IHm. }
    rewrite list_lookup_insert, Hlen, (IH (a + n)%nat) by lia.
    repeat case_decide; try reflexivity; try (exfalso; lia).
    destruct_and!. subst. reflexivity.
Qed.

Lemma cnfCopyf_lookup (source_f : list ascii) (source_len : Z)
    (dest_f : list ascii) (dest_len : Z) (k : nat) :
  cnfCopyf source_f source_len dest_f dest_len !! k
  = if decide (Z.of_nat k < dest_len /\ (k < length dest_f)%nat)
    then Some (if decide (Z.of_nat k < source_len) then source_f !!! k
               else " "%char)
    else dest_f !! k.
Proof.
  unfold cnfCopyf. destruct (Z.ltb_spec source_len dest_len).
  - cbv zeta. rewrite for_from_insert_lookup, for_loop_insert_lookup.
    assert (Hlen : length (for_loop (Z.to_nat source_len)
                     (fun i d => <[i := source_f !!! i]> d) dest_f)
                   = length dest_f).
    { generalize (Z.to_nat source_len). intros m.
      induction m as [|m IH]; [reflexivity|].
      rewrite for_loop_S, length_insert. exact IH. }
    rewrite Hlen.
    repeat case_decide; try reflexivity; exfalso; lia.
  - rewrite for_loop_insert_lookup.
    repeat case_decide; try reflexivity; exfalso; lia.
Qed.

Lemma cnfCopyf_length (source_f : list ascii) (source_len : Z)
    (dest_f : list ascii) (dest_len : Z) :
  length (cnfCopyf source_f source_len dest_f dest_len) = length dest_f.
Proof.
  destruct (decide (length (cnfCopyf source_f source_len dest_f dest_len)
                    <= length dest_f)%nat) as [Hle|Hgt].
  - destruct (decide (length dest_f
                      <= length (cnfCopyf source_f source_len dest_f dest_len))%nat);
      [lia|].
    assert (Hn : cnfCopyf source_f source_len dest_f dest_len
                 !! (length dest_f - 1)%nat = None)
      by (apply lookup_ge_None; lia).
    rewrite cnfCopyf_lookup in Hn.
    case_decide; [discriminate|].
    apply lookup_ge_None in Hn. lia.
  - assert (Hs : is_Some (cnfCopyf source_f source_len dest_f dest_len
                          !! length dest_f))
      by (apply lookup_lt_is_Some; lia).
    rewrite cnfCopyf_lookup in Hs. case_decide; [lia|].
    apply lookup_lt_is_Some in Hs. lia.
Qed.

(** The destination after the copy: the source truncated or padded
    with blanks to [dest_len], followed by what the destination array
    holds beyond [dest_len]. *)
Theorem cnfCopyf_result (source_f : list ascii) (source_len : Z)
    (dest_f : list ascii) (dest_len : Z) :
  0 <= source_len <= Z.of_nat (length source_f) ->
  0 <= dest_len <= Z.of_nat (length dest_f) ->
  cnfCopyf source_f source_len dest_f dest_len
  = take (Z.to_nat dest_len)
      (take (Z.to_nat source_len) source_f
       ++ replicate (Z.to_nat (dest_len - source_len)) " "%char)
    ++ drop (Z.to_nat dest_len) dest_f.
Proof.
  intros Hs Hd. apply list_eq. intros k. rewrite cnfCopyf_lookup.
  destruct (decide (k < Z.to_nat dest_len)%nat) as [Hk|Hk].
  - rewrite lookup_app_l by (rewrite length_take, length_app, length_take,
                               length_replicate; lia).
    rewrite lookup_take_lt by lia.
    case_decide; [|lia].
    destruct (decide (Z.of_nat k < source_len)) as [Hks|Hks].
    + rewrite lookup_app_l by (rewrite length_take; lia).
      rewrite lookup_take_lt by lia.
      rewrite list_lookup_total_alt.
      destruct (lookup_lt_is_Some_2 source_f k ltac:(lia)) as [c ->].
      reflexivity.
    + rewrite lookup_app_r by (rewrite length_take; lia).
      symmetry. apply lookup_replicate_2.
      rewrite length_take. lia.
  - case_decide; [lia|].
    rewrite lookup_app_r by (rewrite length_take, length_app, length_take,
                               length_replicate; lia).
    rewrite length_take, length_app, length_take, length_replicate.
    rewrite lookup_drop. f_equal. lia.
Qed.

(** A copy through an intermediate string that holds the whole source,
    or is as long as the destination, is the direct copy. *)
Theorem cnfCopyf_via (source_f : list ascii) (source_len : Z)
    (mid_f : list ascii) (mid_len : Z) (dest_f : list ascii) (dest_len : Z) :
  0 <= mid_len <= Z.of_nat (length mid_f) ->
  source_len <= mid_len \/ dest_len <= mid_len ->
  cnfCopyf (cnfCopyf source_f source_len mid_f mid_len) mid_len
           dest_f dest_len
  = cnfCopyf source_f source_len dest_f dest_len.
Proof.
  intros Hm Hlen. apply list_eq. intros k. rewrite !cnfCopyf_lookup.
  case_decide; [|reflexivity]. f_equal.
  rewrite list_lookup_total_alt, cnfCopyf_lookup.
  repeat case_decide; try reflexivity; exfalso; lia.
Qed.

Lemma c_strlen_le (s : list ascii) : (c_strlen s <= length s)%nat.
Proof.
  induction s as [|c s IH]; cbn; [lia|].
  destruct (Ascii.eqb c "000"); lia.
Qed.

Lemma c_strlen_lookup (s : list ascii) (i : nat) :
  (i < c_strlen s)%nat ->
  exists c, s !! i = Some c /\ c <> "000"%char.
Proof.
  revert i. induction s as [|c s IH]; intros i Hi; cbn in Hi; [lia|].
  destruct (Ascii.eqb_spec c "000"); [lia|].
  destruct i as [|i]; [exists c; split; [reflexivity | assumption]|].
  apply IH. lia.
Qed.

Lemma c_strlen_app (x y : list ascii) :
  c_strlen (x ++ y)
  = if decide (c_strlen x < length x)%nat then c_strlen x
    else (length x + c_strlen y)%nat.
Proof.
  induction x as [|c x IH]; [reflexivity|].
  cbn [app c_strlen length]. destruct (Ascii.eqb c "000").
  - clear IH. case_decide; [reflexivity | lia].
  - rewrite IH. clear IH. repeat case_decide; lia.
Qed.

Lemma c_strlen_blanks (k : nat) (y : list ascii) :
  c_strlen (replicate k " "%char ++ y) = (k + c_strlen y)%nat.
Proof. induction k as [|k IH]; [reflexivity|]. cbn. rewrite IH. reflexivity. Qed.

Lemma skip_blanks_le (s : list ascii) (n : nat) : (skip_blanks s n <= n)%nat.
Proof.
  induction n as [|n IH]; cbn; [lia|].
  destruct (Ascii.eqb _ _); lia.
Qed.

Lemma skip_blanks_blank (s : list ascii) (n i : nat) :
  (skip_blanks s n <= i < n)%nat -> s !!! i = " "%char.
Proof.
  induction n as [|n IH]; cbn; [lia|].
  destruct (Ascii.eqb_spec (s !!! n) " ") as [Heq|Hne]; [|lia].
  intros Hi. destruct (decide (i = n)) as [->|]; [exact Heq|].
  apply IH. lia.
Qed.

Lemma skip_blanks_last (s : list ascii) (n : nat) :
  (0 < skip_blanks s n)%nat ->
  s !!! (skip_blanks s n - 1)%nat <> " "%char.
Proof.
  induction n as [|n IH]; cbn; [lia|].
  destruct (Ascii.eqb_spec (s !!! n) " ") as [Heq|Hne]; [exact IH|].
  intros _. replace (S n - 1)%nat with n by lia. exact Hne.
Qed.

Lemma skip_blanks_ext (s s' : list ascii) (n : nat) :
  (forall i, (i < n)%nat -> s !!! i = s' !!! i) ->
  skip_blanks s n = skip_blanks s' n.
Proof.
  induction n as [|n IH]; intros H; [reflexivity|].
  cbn. rewrite <- (H n) by lia. rewrite IH; [reflexivity|].
  intros i Hi. apply H. lia.
Qed.

Lemma skip_blanks_over (s : list ascii) (n k : nat) :
  (forall i, (n <= i < n + k)%nat -> s !!! i = " "%char) ->
  skip_blanks s (n + k) = skip_blanks s n.
Proof.
  induction k as [|k IH]; intros H; [f_equal; lia|].
  replace (n + S k)%nat with (S (n + k)) by lia. cbn.
  rewrite (H (n + k)%nat) by lia. cbn. apply IH.
  intros i Hi. apply H. lia.
Qed.

(** What [cnfLenc] returns: a position within the C string, with
    nothing but blanks between it and the terminating null, and a
    character other than a blank just before it, unless it is 0. *)
Theorem cnfLenc_last_nonblank (source_c : list ascii) :
  let n := Z.to_nat (cnfLenc source_c) in
  0 <= cnfLenc source_c <= Z.of_nat (c_strlen source_c)
  /\ (forall i : nat, (n <= i < c_strlen source_c)%nat ->
        source_c !! i = Some " "%char)
  /\ ((0 < n)%nat ->
      exists c, source_c !! (n - 1)%nat = Some c
                /\ c <> " "%char /\ c <> "000"%char).
Proof.
  cbv zeta. unfold cnfLenc. rewrite Nat2Z.id.
  pose proof (skip_blanks_le source_c (c_strlen source_c)) as Hle.
  split; [lia|]. split.
  - intros i Hi.
    destruct (c_strlen_lookup source_c i ltac:(lia)) as (c & Hc & _).
    pose proof (skip_blanks_blank source_c _ i Hi) as Hb.
    rewrite list_lookup_total_alt, Hc in Hb. cbn in Hb. subst c. exact Hc.
  - intros Hpos.
    destruct (c_strlen_lookup source_c
                (skip_blanks source_c (c_strlen source_c) - 1)
                ltac:(lia)) as (c & Hc & Hnul).
    exists c. split; [exact Hc|]. split; [|exact Hnul].
    pose proof (skip_blanks_last source_c _ Hpos) as Hb.
    rewrite list_lookup_total_alt, Hc in Hb. exact Hb.
Qed.

Lemma cnfLenc_blanks (x : list ascii) (k : nat) :
  cnfLenc ((x ++ replicate k " "%char) ++ ["000"%char])
  = cnfLenc (x ++ ["000"%char]).
Proof.
  unfold cnfLenc. f_equal. rewrite <- !app_assoc.
  rewrite (c_strlen_app x (replicate k " "%char ++ ["000"%char])).
  rewrite (c_strlen_app x ["000"%char]), c_strlen_blanks.
  change (c_strlen ["000"%char]) with 0%nat.
  case_decide as Hx.
  - apply skip_blanks_ext. intros i Hi.
    rewrite !list_lookup_total_alt, !lookup_app_l by lia. reflexivity.
  - rewrite !Nat.add_0_r.
    rewrite skip_blanks_over.
    + apply skip_blanks_ext. intros i Hi.
      rewrite !list_lookup_total_alt, !lookup_app_l by lia. reflexivity.
    + intros i Hi. rewrite list_lookup_total_alt.
      rewrite lookup_app_r by lia.
      rewrite lookup_app_l by (rewrite length_replicate; lia).
      rewrite (lookup_replicate_2 k " "%char (i - length x))
        by lia. reflexivity.
Qed.

Lemma cnfCopyf_exact (source_f : list ascii) (source_len : Z)
    (dest_f : list ascii) (dest_len : Z) :
  0 <= source_len <= Z.of_nat (length source_f) ->
  source_len <= dest_len -> dest_len = Z.of_nat (length dest_f) ->
  cnfCopyf source_f source_len dest_f dest_len
  = take (Z.to_nat source_len) source_f
    ++ replicate (Z.to_nat (dest_len - source_len)) " "%char.
Proof.
  intros Hs Hd Hlen. apply list_eq. intros k. rewrite cnfCopyf_lookup.
  destruct (decide (Z.of_nat k < source_len)) as [Hks|Hks].
  - case_decide; [|lia].
    rewrite lookup_app_l by (rewrite length_take; lia).
    rewrite lookup_take_lt by lia.
    rewrite list_lookup_total_alt.
    destruct (lookup_lt_is_Some_2 source_f k ltac:(lia)) as [c ->].
    reflexivity.
  - rewrite lookup_app_r by (rewrite length_take; lia).
    rewrite length_take.
    case_decide.
    + symmetry. apply lookup_replicate_2. lia.
    + rewrite (proj2 (lookup_ge_None dest_f k)) by lia.
      symmetry. apply lookup_ge_None. rewrite length_replicate. lia.
Qed.

(** The blanks that [cnfCopyf] pads a string with do not count for
    [cnfLenc]. *)
Theorem cnfLenc_cnfCopyf (source_f : list ascii) (source_len : Z)
    (dest_f : list ascii) (dest_len : Z) :
  0 <= source_len <= Z.of_nat (length source_f) ->
  source_len <= dest_len -> dest_len = Z.of_nat (length dest_f) ->
  cnfLenc (cnfCopyf source_f source_len dest_f dest_len ++ ["000"%char])
  = cnfLenc (take (Z.to_nat source_len) source_f ++ ["000"%char]).
Proof.
  intros Hs Hd Hlen. rewrite cnfCopyf_exact by lia.
  apply cnfLenc_blanks.
Qed.

Lemma to_int_id (x : Z) : - 2 ^ 31 <= x < 2 ^ 31 -> Stats.to_int x = x.
Proof. intros Hx. unfold Stats.to_int. rewrite Z.mod_small; lia. Qed.

Lemma product_loop (dims : list Z) (n : nat) :
  (n <= length dims)%nat ->
  (forall k : nat, (k <= n)%nat ->
     - 2 ^ 31 <= fold_right Z.mul 1 (take k dims) < 2 ^ 31) ->
  for_loop n (fun i nels => Stats.to_int (nels * dims !!! i)) 1
  = fold_right Z.mul 1 (take n dims).
Proof.
  induction n as [|n IH]; intros Hn Hfit; [reflexivity|].
  rewrite for_loop_S, IH by (try lia; intros k Hk; apply Hfit; lia).
  destruct (lookup_lt_is_Some_2 dims n ltac:(lia)) as [d Hd].
  pose proof (Hfit (S n) (le_n _)) as Hlast.
  rewrite (take_S_r dims n d Hd) in Hlast |- *.
  rewrite list_lookup_total_alt, Hd. cbn [default from_option id].
  assert (Hmul : forall l : list Z,
            fold_right Z.mul 1 (l ++ [d]) = fold_right Z.mul 1 l * d).
  { intros l. induction l as [|x l IHl]; cbn; [lia|]. rewrite IHl. lia. }
  rewrite Hmul in Hlast |- *. apply to_int_id. exact Hlast.
Qed.

(** The elements [cnfImpla] converts when no product of the leading
    dimensions leaves the range of an [int]: as many as the product
    of all the dimensions, from the first on; none if a dimension is
    zero or the product is negative, one if there is no dimension. *)
Theorem cnfImpla_elements `{F : F77Lib} (source_f dest_c : list Z)
    (ndims : Z) (dims : list Z) (k : nat) :
  ndims = Z.of_nat (length dims) ->
  (forall n : nat, (n <= length dims)%nat ->
     - 2 ^ 31 <= fold_right Z.mul 1 (take n dims) < 2 ^ 31) ->
  cnfImpla source_f dest_c ndims dims !! k
  = if decide (Z.of_nat k < fold_right Z.mul 1 dims
               /\ (k < length dest_c)%nat)
    then Some (F77_ISTRUE (source_f !!! k))
    else dest_c !! k.
Proof.
  intros -> Hfit. unfold cnfImpla. cbv zeta.
  rewrite Nat2Z.id, product_loop, firstn_all by (try lia; exact Hfit).
  rewrite for_loop_insert_lookup.
  repeat case_decide; try reflexivity; exfalso; lia.
Qed.

Lemma cnfCopyf_result_witness :
  cnfCopyf (list_ascii_of_string "AB") 2 (list_ascii_of_string "xxxxx") 4
  = list_ascii_of_string "AB  x".
Proof.
  refine (eq_trans (cnfCopyf_result (list_ascii_of_string "AB") 2
                      (list_ascii_of_string "xxxxx") 4 _ _) _).
  - simpl. lia.
  - simpl. lia.
  - reflexivity.
Defined.

Lemma cnfCopyf_via_witness :
  cnfCopyf (cnfCopyf (list_ascii_of_string "ABCD") 4
                     (list_ascii_of_string "xxxxxx") 6) 6
           (list_ascii_of_string "yyy") 3
  = cnfCopyf (list_ascii_of_string "ABCD") 4 (list_ascii_of_string "yyy") 3.
Proof.
  apply cnfCopyf_via.
  - simpl. lia.
  - left. lia.
Defined.

Lemma cnfLenc_cnfCopyf_witness :
  cnfLenc (cnfCopyf (list_ascii_of_string "A B") 3
                    (list_ascii_of_string "xxxxx") 5 ++ ["000"%char])
  = cnfLenc (take (Z.to_nat 3) (list_ascii_of_string "A B") ++ ["000"%char]).
Proof.
  apply cnfLenc_cnfCopyf.
  - simpl. lia.
  - lia.
  - reflexivity.
Defined.

Lemma cnfImpla_elements_witness :
  cnfImpla (F := f77_nonzero) [0; 5; 0; -1; 7; 0; 9] [8; 8; 8; 8; 8; 8; 8]
           2 [2; 3] !! 4%nat
  = Some 1.
Proof.
  refine (eq_trans (@cnfImpla_elements f77_nonzero [0; 5; 0; -1; 7; 0; 9]
                      [8; 8; 8; 8; 8; 8; 8] 2 [2; 3] 4 _ _) _).
  - reflexivity.
  - intros [|[|[|n]]] Hn; simpl in *; lia.
  - reflexivity.
Defined.

(** Dimensions whose product does not fit an [int]: the count wraps
    to 3 and three elements are converted. *)
Lemma cnfImpla_wraps :
  cnfImpla (F := f77_nonzero) [4; 0; 5; 6] [8; 8; 8; 8] 2 [-9241; 464773]
  = [1; 0; 1; 8].
Proof. vm_compute. reflexivity. Qed.

End CnfProps.

(** ** Properties of the integer conversions *)

Module Num1Props.
Import Num1.

Ltac bytes_norm :=
  cbv [num1_ubtoi num1_ubtouw num1_ubtow num1_uwtoi num1_wtoub num1_itouw
       to_bytes of_bytes of_bytes_signed put get List.map seq rev app take
       drop length Nat.add fold_right];
  change (Z.of_nat 0) with 0; change (Z.of_nat 1) with 1;
  change (Z.of_nat 2) with 2; change (Z.of_nat 3) with 3;
  change (Z.of_nat 4) with 4;
  change (256 ^ 0) with 1; change (256 ^ 1) with 256;
  change (256 ^ 2) with 65536; change (256 ^ 3) with 16777216;
  change (256 ^ 4 / 2) with 2147483648;
  change (256 ^ 4) with 4294967296;
  rewrite ?Z.div_1_r, ?Zdiv_0_l, ?Zmod_0_l.

Lemma split_word (w : Z) :
  0 <= w < 65536 -> w mod 256 + 256 * ((w / 256) mod 256) = w.
Proof.
  intros H. rewrite (Z.mod_small (w / 256)).
  - pose proof (Z.div_mod w 256). lia.
  - split; [apply Z.div_pos; lia | apply Z.div_lt_upper_bound; lia].
Qed.

Lemma low_word (i : Z) :
  i mod 256 + 256 * ((i / 256) mod 256) = i mod 65536.
Proof.
  change 65536 with (256 * 256).
  rewrite Z.rem_mul_r by lia. reflexivity.
Qed.

Lemma num1_ubtow_id (big : bool) (ub : Z) :
  0 <= ub < 256 -> num1_ubtow big ub = ub.
Proof.
  intros Hub.
  destruct big; bytes_norm; rewrite (Z.mod_small ub 256) by lia;
    change (65536 / 2) with 32768;
    match goal with
    | |- context [?a <? ?b] => destruct (Z.ltb_spec a b)
    end; lia.
Qed.

Lemma num1_uwtoi_id (big : bool) (uw : Z) :
  0 <= uw < 65536 -> num1_uwtoi big uw = uw.
Proof.
  intros Huw. pose proof (split_word uw Huw) as Hw.
  destruct big; bytes_norm;
    match goal with
    | |- context [?a <? ?b] => destruct (Z.ltb_spec a b)
    end; lia.
Qed.

Lemma num1_wtoub_low (big : bool) (w : Z) : num1_wtoub big w = w mod 256.
Proof. destruct big; bytes_norm; lia. Qed.

Lemma num1_itouw_low (big : bool) (i : Z) : num1_itouw big i = i mod 65536.
Proof. pose proof (low_word i) as Hi. destruct big; bytes_norm; lia. Qed.

(** The conversions from an unsigned type to a wider type extend with
    zeros: the number is kept, whichever way the platform orders its
    bytes. *)
Theorem num1_widen_value (big : bool) (ub uw : Z) :
  0 <= ub < 256 -> 0 <= uw < 65536 ->
  num1_ubtoi big ub = ub /\ num1_ubtouw big ub = ub
  /\ num1_ubtow big ub = ub /\ num1_uwtoi big uw = uw.
Proof.
  intros Hub Huw. pose proof (split_word uw Huw) as Hw.
  destruct big; bytes_norm; rewrite ?(Z.mod_small ub 256) by lia;
    change (65536 / 2) with 32768;
    repeat match goal with
           | |- context [?a <? ?b] => destruct (Z.ltb_spec a b)
           end; lia.
Qed.

(** The conversions to a narrower unsigned type keep the low-order
    byte of a word and the low-order word of an integer, negative
    ones included, whichever way the platform orders its bytes. *)
Theorem num1_narrow_value (big : bool) (w i : Z) :
  num1_wtoub big w = w mod 256 /\ num1_itouw big i = i mod 65536.
Proof.
  pose proof (low_word i) as Hi.
  destruct big; bytes_norm; split; lia.
Qed.

(** Widening a number and narrowing the result gives the number
    back. *)
Theorem num1_round_trip (big : bool) (ub uw : Z) :
  0 <= ub < 256 -> 0 <= uw < 65536 ->
  num1_wtoub big (num1_ubtow big ub) = ub
  /\ num1_itouw big (num1_uwtoi big uw) = uw.
Proof.
  intros Hub Huw.
  rewrite (num1_ubtow_id big ub Hub), (num1_uwtoi_id big uw Huw).
  rewrite num1_wtoub_low, num1_itouw_low.
  rewrite !Z.mod_small by lia. split; reflexivity.
Qed.

Lemma num1_widen_value_witness :
  num1_ubtoi true 200 = 200 /\ num1_ubtouw true 200 = 200
  /\ num1_ubtow true 200 = 200 /\ num1_uwtoi true 40000 = 40000.
Proof. apply num1_widen_value; lia. Defined.

Lemma num1_round_trip_witness :
  num1_wtoub false (num1_ubtow false 200) = 200
  /\ num1_itouw false (num1_uwtoi false 40000) = 40000.
Proof. apply num1_round_trip; lia. Defined.

End Num1Props.

(** ** The order of the numbers among the doubles *)

Module FloatOrderProps.
Import FloatOrder.

Lemma SFltb_key (f g : spec_float) :
  f <> S754_nan -> g <> S754_nan ->
  (SFltb f g = true <-> key_lt (fkey f) (fkey g)).
Proof.
  intros Hf Hg. unfold SFltb, key_lt.
  destruct f as [[]|[]| |[] m e], g as [[]|[]| |[] m' e'];
    try congruence; cbn;
    try (split; [discriminate | lia]);
    try (split; [lia | reflexivity]);
    try (split; [reflexivity | lia]).
  all: change (PosDef.Pos.compare_cont Eq m m') with (Pos.compare m m').
  all: destruct (Z.compare_spec e e') as [->|He|He];
    [destruct (Pos.compare_spec m m') as [->|Hm|Hm]; cbn|..];
    (split; [first [discriminate | lia] | first [reflexivity | lia]]).
Qed.

Lemma is_num_spec (x : float) : is_num x -> Prim2SF x <> S754_nan.
Proof.
  unfold is_num, PrimFloat.is_nan. rewrite FloatAxioms.eqb_spec. intros H Hn.
  rewrite Hn in H. discriminate H.
Qed.

Lemma ltb_key (x y : float) :
  is_num x -> is_num y ->
  (PrimFloat.ltb x y = true <-> key_lt (fkey (Prim2SF x)) (fkey (Prim2SF y))).
Proof.
  intros Hx Hy. rewrite FloatAxioms.ltb_spec.
  apply SFltb_key; apply is_num_spec; assumption.
Qed.

Lemma key_lt_trans a b c : key_lt a b -> key_lt b c -> key_lt a c.
Proof. unfold key_lt. destruct a as [[??]?], b as [[??]?], c as [[??]?]. cbn. lia. Qed.

Lemma key_lt_irrefl a : ~ key_lt a a.
Proof. unfold key_lt. destruct a as [[??]?]. cbn. lia. Qed.

Lemma key_lt_negtrans a b c : ~ key_lt a b -> ~ key_lt b c -> ~ key_lt a c.
Proof. unfold key_lt. destruct a as [[??]?], b as [[??]?], c as [[??]?]. cbn. lia. Qed.

Lemma ltb_false_key (x y : float) :
  is_num x -> is_num y ->
  (PrimFloat.ltb x y = false <-> ~ key_lt (fkey (Prim2SF x)) (fkey (Prim2SF y))).
Proof.
  intros Hx Hy. rewrite <- (ltb_key x y Hx Hy).
  destruct (PrimFloat.ltb x y); split; congruence.
Qed.

Lemma ltb_asym (x y : float) :
  is_num x -> is_num y -> PrimFloat.ltb x y = true -> PrimFloat.ltb y x = false.
Proof.
  intros Hx Hy H. apply ltb_false_key; [assumption..|].
  apply ltb_key in H; [|assumption..]. intros H'.
  exact (key_lt_irrefl _ (key_lt_trans _ _ _ H H')).
Qed.

Lemma ltb_irrefl (x : float) : PrimFloat.ltb x x = false.
Proof.
  rewrite FloatAxioms.ltb_spec. unfold SFltb.
  destruct (Prim2SF x) as [[]|[]| |[] m e]; cbn; try reflexivity.
  all: rewrite Z.compare_refl;
    change (PosDef.Pos.compare_cont Eq m m) with (Pos.compare m m);
    rewrite Pos.compare_refl; reflexivity.
Qed.

Lemma ltb_trans (x y z : float) :
  is_num x -> is_num y -> is_num z ->
  PrimFloat.ltb x y = true -> PrimFloat.ltb y z = true ->
  PrimFloat.ltb x z = true.
Proof.
  intros Hx Hy Hz. rewrite !ltb_key by assumption. apply key_lt_trans.
Qed.

Lemma ltb_negtrans (x y z : float) :
  is_num x -> is_num y -> is_num z ->
  PrimFloat.ltb x y = false -> PrimFloat.ltb y z = false ->
  PrimFloat.ltb x z = false.
Proof.
  intros Hx Hy Hz. rewrite !ltb_false_key by assumption. apply key_lt_negtrans.
Qed.
End FloatOrderProps.

(** ** Properties of the contour levels *)

Module CupidProps.
Import FloatOrder FloatOrderProps Cupid.

Lemma for_loop_shift {S : Type} (n : nat) (body : nat -> S -> S) (st : S) :
  for_loop (Datatypes.S n) body st
  = for_loop n (fun i => body (Datatypes.S i)) (body 0%nat st).
Proof.
  induction n as [|n IH]; [reflexivity|].
  rewrite for_loop_S, IH, for_loop_S. reflexivity.
Qed.

Lemma cf_compare_swap_cons (i : nat) (z : float) (st : list float * bool) :
  cf_compare_swap (S i) (push z st) = push z (cf_compare_swap i st).
Proof.
  destruct st as [l m]. unfold push, cf_compare_swap. cbn [fst snd].
  change ((z :: l) !!! S i) with (l !!! i).
  change ((z :: l) !!! (S i + 1)%nat) with (l !!! (i + 1)%nat).
  destruct (PrimFloat.ltb _ _); reflexivity.
Qed.

Lemma pass_cons (k : nat) (z : float) (st : list float * bool) :
  for_loop k (fun i => cf_compare_swap (S i)) (push z st)
  = push z (pass k st).
Proof.
  unfold pass. induction k as [|k IH]; [reflexivity|].
  rewrite !for_loop_S, IH. apply cf_compare_swap_cons.
Qed.

Lemma pass_step (k : nat) (x y : float) (t : list float) (m : bool) :
  pass (S k) (x :: y :: t, m)
  = if PrimFloat.ltb x y then push y (pass k (x :: t, true))
    else push x (pass k (y :: t, m)).
Proof.
  unfold pass at 1. rewrite for_loop_shift.
  unfold cf_compare_swap at 2.
  change ((x :: y :: t) !!! 0%nat) with x.
  change ((x :: y :: t) !!! (0 + 1)%nat) with y.
  destruct (PrimFloat.ltb x y).
  - cbn [insert list_insert Nat.add].
    apply (pass_cons k y (x :: t, true)).
  - apply (pass_cons k x (y :: t, m)).
Qed.

(** A pass over the first [k + 1] elements leaves the rest alone. *)
Lemma pass_app (k : nat) (p s : list float) (m : bool) :
  (k < length p)%nat ->
  pass k (p ++ s, m) = (fst (pass k (p, m)) ++ s, snd (pass k (p, m))).
Proof.
  revert p m. induction k as [|k IH]; intros p m Hk; [reflexivity|].
  destruct p as [|x [|y t]]; cbn [length] in Hk; try lia.
  cbn [app]. rewrite !pass_step.
  destruct (PrimFloat.ltb x y).
  - rewrite (IH (x :: t)) by (cbn [length]; lia). reflexivity.
  - rewrite (IH (y :: t)) by (cbn [length]; lia). reflexivity.
Qed.

Lemma pass_perm (k : nat) (p : list float) (m : bool) :
  (k < length p)%nat -> fst (pass k (p, m)) ≡ₚ p.
Proof.
  revert p m. induction k as [|k IH]; intros p m Hk; [reflexivity|].
  destruct p as [|x [|y t]]; cbn [length] in Hk; try lia.
  rewrite pass_step. destruct (PrimFloat.ltb x y); cbn [push fst].
  - rewrite (IH (x :: t)) by (cbn [length]; lia). apply perm_swap.
  - rewrite (IH (y :: t)) by (cbn [length]; lia). reflexivity.
Qed.

(** A pass over all of [p] ends with an element that none of [p]
    is smaller than. *)
Lemma pass_last (k : nat) (p : list float) (m : bool) :
  length p = S k -> Forall is_num p ->
  exists pre mn,
    fst (pass k (p, m)) = pre ++ [mn]
    /\ Forall (fun z => PrimFloat.ltb z mn = false) p.
Proof.
  revert p m. induction k as [|k IH]; intros p m Hlen Hnum.
  - destruct p as [|x [|y t]]; try discriminate.
    exists [], x. split; [reflexivity|].
    constructor; [apply ltb_irrefl | constructor].
  - destruct p as [|x [|y t]]; try discriminate.
    cbn [length] in Hlen.
    apply Forall_cons in Hnum as [Hx Hnum].
    pose proof Hnum as Hyt. apply Forall_cons in Hnum as [Hy Ht].
    rewrite pass_step. destruct (PrimFloat.ltb x y) eqn:Hxy.
    + destruct (IH (x :: t) true) as (pre & mn & Heq & Hmn);
        [cbn [length]; lia | constructor; assumption |].
      exists (y :: pre), mn. cbn [push fst]. rewrite Heq.
      split; [reflexivity|].
      assert (Hnm : is_num mn).
      { assert (Hin : mn ∈ x :: t).
        { rewrite <- (pass_perm k (x :: t) true) by (cbn [length]; lia).
          rewrite Heq. apply elem_of_app. right. left. }
        eapply Forall_forall in Hin; [exact Hin|].
        constructor; assumption. }
      apply Forall_cons in Hmn as [Hxm Htm].
      constructor; [exact Hxm|]. constructor; [|exact Htm].
      destruct (PrimFloat.ltb y mn) eqn:Hym; [|reflexivity].
      rewrite (ltb_trans x y mn Hx Hy Hnm Hxy Hym) in Hxm. discriminate.
    + destruct (IH (y :: t) m) as (pre & mn & Heq & Hmn);
        [cbn [length]; lia | exact Hyt |].
      exists (x :: pre), mn. cbn [push fst]. rewrite Heq.
      split; [reflexivity|].
      assert (Hnm : is_num mn).
      { assert (Hin : mn ∈ y :: t).
        { rewrite <- (pass_perm k (y :: t) m) by (cbn [length]; lia).
          rewrite Heq. apply elem_of_app. right. left. }
        eapply Forall_forall in Hin; [exact Hin | exact Hyt]. }
      constructor; [|exact Hmn].
      apply Forall_cons in Hmn as [Hym _].
      exact (ltb_negtrans x y mn Hx Hy Hnm Hxy Hym).
Qed.

(** A pass that leaves [more] at 0 started with it at 0, exchanged
    nothing, and found each element not smaller than the next. *)
Lemma pass_quiet (k : nat) (p : list float) (m : bool) :
  (k < length p)%nat -> snd (pass k (p, m)) = false ->
  m = false /\ fst (pass k (p, m)) = p
  /\ forall i : nat, (i < k)%nat ->
       PrimFloat.ltb (p !!! i) (p !!! S i) = false.
Proof.
  revert p m. induction k as [|k IH]; intros p m Hk Hq.
  - cbn in Hq. subst m. repeat split. intros i Hi. lia.
  - destruct p as [|x [|y t]]; cbn [length] in Hk; try lia.
    rewrite pass_step in Hq |- *.
    destruct (PrimFloat.ltb x y) eqn:Hxy; cbn [push fst snd] in *.
    + destruct (IH (x :: t) true) as (Hm & _); [cbn [length]; lia|exact Hq|].
      discriminate.
    + destruct (IH (y :: t) m) as (Hm & Heq & Hadj);
        [cbn [length]; lia | exact Hq |].
      rewrite Heq. repeat split; [exact Hm|].
      intros [|i] Hi; [exact Hxy|].
      apply (Hadj i). lia.
Qed.

Lemma adjacent_StronglySorted (p : list float) :
  Forall is_num p ->
  (forall i : nat, (S i < length p)%nat ->
     PrimFloat.ltb (p !!! i) (p !!! S i) = false) ->
  StronglySorted (fun x y => PrimFloat.ltb x y = false) p.
Proof.
  induction p as [|x p IH]; intros Hnum Hadj; [constructor|].
  apply Forall_cons in Hnum as [Hx Hnum].
  assert (Hs : StronglySorted (fun x y => PrimFloat.ltb x y = false) p).
  { apply IH; [exact Hnum|]. intros i Hi. apply (Hadj (S i)).
    cbn [length]. lia. }
  constructor; [exact Hs|].
  destruct p as [|y p]; [constructor|].
  assert (Hxy : PrimFloat.ltb x y = false)
    by (apply (Hadj 0%nat); cbn [length]; lia).
  constructor; [exact Hxy|].
  apply StronglySorted_inv in Hs as [_ Hy].
  apply Forall_cons in Hnum as [Hy' Hnum].
  apply Forall_forall. intros z Hz.
  pose proof (proj1 (Forall_forall _ _) Hy z Hz) as Hyz.
  pose proof (proj1 (Forall_forall _ _) Hnum z Hz) as Hnz.
  exact (ltb_negtrans x y z Hx Hy' Hnz Hxy Hyz).
Qed.

Lemma StronglySorted_app_settled (p s : list float) :
  StronglySorted (fun x y => PrimFloat.ltb x y = false) p ->
  StronglySorted (fun x y => PrimFloat.ltb x y = false) s ->
  settled p s ->
  StronglySorted (fun x y => PrimFloat.ltb x y = false) (p ++ s).
Proof.
  intros Hp Hs Hps. induction Hp as [|x p Hp IH Hx]; [exact Hs|].
  apply Forall_cons in Hps as [Hxs Hps].
  cbn [app]. constructor; [apply IH; exact Hps|].
  apply Forall_app. split; assumption.
Qed.

Lemma cf_passes_sorted (k : nat) (p s : list float) :
  length p = S k -> Forall is_num p ->
  StronglySorted (fun x y => PrimFloat.ltb x y = false) s ->
  settled p s ->
  StronglySorted (fun x y => PrimFloat.ltb x y = false)
    (cf_passes k (p ++ s)).
Proof.
  revert p s. induction k as [|k IH]; intros p s Hlen Hnum Hs Hps.
  - destruct p as [|x [|y t]]; try discriminate.
    cbn [cf_passes app]. constructor; [exact Hs|].
    apply Forall_cons in Hps as [Hxs _]. exact Hxs.
  - cbn [cf_passes]. unfold cf_pass. fold (pass (S k) (p ++ s, false)).
    rewrite pass_app by lia.
    pose proof (pass_perm (S k) p false ltac:(lia)) as Hperm.
    destruct (pass_last (S k) p false Hlen Hnum) as (pre & mn & Heq & Hmn).
    destruct (snd (pass (S k) (p, false))) eqn:Hmore.
    + rewrite Heq, <- app_assoc. cbn [app].
      rewrite Heq in Hperm.
      assert (Hnum' : Forall is_num (pre ++ [mn]))
        by (rewrite Hperm; exact Hnum).
      assert (Hps' : settled (pre ++ [mn]) s)
        by (unfold settled; rewrite Hperm; exact Hps).
      assert (Hmn' : Forall (fun z => PrimFloat.ltb z mn = false) (pre ++ [mn]))
        by (rewrite Hperm; exact Hmn).
      apply Forall_app in Hnum' as [Hnpre _].
      apply Forall_app in Hps' as [Hpre Hmns].
      apply Forall_app in Hmn' as [Hpm _].
      apply IH.
      * apply Permutation_length in Hperm.
        rewrite length_app in Hperm. cbn [length] in Hperm. lia.
      * exact Hnpre.
      * constructor; [exact Hs|].
        apply Forall_cons in Hmns as [Hmns _]. exact Hmns.
      * unfold settled. apply Forall_forall. intros x Hx.
        constructor; [exact (proj1 (Forall_forall _ _) Hpm x Hx)|].
        exact (proj1 (Forall_forall _ _) Hpre x Hx).
    + destruct (pass_quiet (S k) p false ltac:(lia) Hmore)
        as (_ & Hsame & Hadj).
      rewrite Hsame.
      apply StronglySorted_app_settled; [|exact Hs|exact Hps].
      apply adjacent_StronglySorted; [exact Hnum|].
      intros i Hi. apply Hadj. lia.
Qed.

Lemma cf_passes_perm (k : nat) (l : list float) :
  (k < length l)%nat -> cf_passes k l ≡ₚ l.
Proof.
  revert l. induction k as [|k IH]; intros l Hk; [reflexivity|].
  cbn [cf_passes]. unfold cf_pass. fold (pass (S k) (l, false)).
  pose proof (pass_perm (S k) l false Hk) as Hperm.
  destruct (pass (S k) (l, false)) as [l' more]. cbn [fst] in Hperm.
  destruct more; [|exact Hperm].
  rewrite IH; [exact Hperm|].
  apply Permutation_length in Hperm. lia.
Qed.

(** The sort of lines 125-139 returns the levels it was given, each
    as often as it came, in another order. *)
Theorem cf_sort_levels_permutation (ret : list float) :
  cf_sort_levels ret ≡ₚ ret.
Proof.
  unfold cf_sort_levels. destruct ret as [|x ret]; [reflexivity|].
  apply cf_passes_perm. cbn [length]. lia.
Qed.

(** Levels that are numbers (no NaN among them) come out in
    decreasing order: none is smaller than one that follows it. *)
Theorem cf_sort_levels_decreasing (ret : list float) :
  Forall is_num ret ->
  forall (i j : nat) (x y : float),
    (i < j)%nat -> cf_sort_levels ret !! i = Some x ->
    cf_sort_levels ret !! j = Some y -> PrimFloat.ltb x y = false.
Proof.
  intros Hnum.
  assert (Hs : StronglySorted (fun x y => PrimFloat.ltb x y = false)
                 (cf_sort_levels ret)).
  { unfold cf_sort_levels. destruct ret as [|x ret]; [constructor|].
    rewrite <- (app_nil_r (x :: ret)) at 2.
    apply cf_passes_sorted.
    - cbn [length]. lia.
    - exact Hnum.
    - constructor.
    - unfold settled. apply Forall_forall. intros; constructor. }
  induction Hs as [|a l Hl IH Ha]; intros i j x y Hij Hi Hj.
  - discriminate.
  - destruct j as [|j]; [lia|]. cbn in Hj.
    destruct i as [|i].
    + cbn in Hi. injection Hi as <-.
      apply list_elem_of_lookup_2 in Hj.
      exact (proj1 (Forall_forall _ _) Ha y Hj).
    + cbn in Hi. apply (IH i j); [lia | assumption..].
Qed.

Lemma pass_sorted_input (k : nat) (p : list float) :
  (k < length p)%nat ->
  (forall i : nat, (i < k)%nat ->
     PrimFloat.ltb (p !!! i) (p !!! S i) = false) ->
  pass k (p, false) = (p, false).
Proof.
  revert p. induction k as [|k IH]; intros p Hk Hadj; [reflexivity|].
  destruct p as [|x [|y t]]; cbn [length] in Hk; try lia.
  rewrite pass_step.
  rewrite (Hadj 0%nat ltac:(lia) : PrimFloat.ltb x y = false).
  rewrite (IH (y :: t)); [reflexivity | cbn [length]; lia |].
  intros i Hi. apply (Hadj (S i)). lia.
Qed.

(** Levels given with none smaller than its successor are returned
    as they are. *)
Theorem cf_sort_levels_sorted_input (ret : list float) :
  (forall i : nat, (S i < length ret)%nat ->
     PrimFloat.ltb (ret !!! i) (ret !!! S i) = false) ->
  cf_sort_levels ret = ret.
Proof.
  intros Hadj. unfold cf_sort_levels.
  destruct (length ret - 1)%nat as [|k] eqn:Hlen; [reflexivity|].
  cbn [cf_passes]. unfold cf_pass. fold (pass (S k) (ret, false)).
  rewrite pass_sorted_input; [reflexivity | lia |].
  intros i Hi. apply Hadj. lia.
Qed.

Lemma cf_fill_length (n : nat) (clevel cdelta : float) (ret : list float) :
  length (cf_fill n clevel cdelta ret) = length ret.
Proof.
  revert clevel ret. induction n as [|n IH]; intros clevel ret; [reflexivity|].
  cbn [cf_fill]. rewrite IH. apply length_insert.
Qed.

Lemma cf_fill_lookup (n : nat) (clevel cdelta : float) (ret : list float)
    (i : nat) :
  (n <= length ret)%nat ->
  cf_fill n clevel cdelta ret !! i
  = if decide (i < n)%nat
    then Some (Nat.iter (n - 1 - i) (fun c => PrimFloat.add c cdelta) clevel)
    else ret !! i.
Proof.
  revert clevel ret. induction n as [|n IH]; intros clevel ret Hn.
  - cbn [cf_fill]. case_decide; [lia | reflexivity].
  - cbn [cf_fill]. rewrite IH by (rewrite length_insert; lia).
    destruct (decide (i < n)%nat) as [Hi|Hi].
    + case_decide; [|lia]. f_equal.
      replace (S n - 1 - i)%nat with (S (n - 1 - i)) by lia.
      rewrite Nat.iter_succ_r. reflexivity.
    + destruct (decide (i = n)) as [->|Hne].
      * case_decide; [|lia]. rewrite list_lookup_insert_eq by lia.
        replace (S n - 1 - n)%nat with 0%nat by lia. reflexivity.
      * case_decide; [lia|]. apply list_lookup_insert_ne. congruence.
Qed.

(** The levels the loop of lines 171-175 stores: the lowest one last,
    each of the others the next one plus the interval. *)
Theorem cf_fill_ladder (n : nat) (clow cdelta : float) (ret : list float) :
  (n <= length ret)%nat ->
  let out := cf_fill n clow cdelta ret in
  ((0 < n)%nat -> out !! (n - 1)%nat = Some clow)
  /\ (forall (i : nat) (c : float), (S i < n)%nat ->
        out !! S i = Some c -> out !! i = Some (PrimFloat.add c cdelta))
  /\ (forall i : nat, (n <= i)%nat -> out !! i = ret !! i)
  /\ length out = length ret.
Proof.
  intros Hn. cbv zeta. repeat split.
  - intros Hpos. rewrite cf_fill_lookup by exact Hn.
    case_decide; [|lia].
    replace (n - 1 - (n - 1))%nat with 0%nat by lia. reflexivity.
  - intros i c Hi. rewrite !cf_fill_lookup by exact Hn.
    repeat case_decide; try lia. intros [= <-]. f_equal.
    replace (n - 1 - i)%nat with (S (n - 1 - S i)) by lia. reflexivity.
  - intros i Hi. rewrite cf_fill_lookup by exact Hn.
    case_decide; [lia | reflexivity].
  - apply cf_fill_length.
Qed.


Lemma cf_sort_levels_decreasing_witness :
  PrimFloat.ltb 3 1 = false.
Proof.
  refine (cf_sort_levels_decreasing [1; 3; 2]%float _ 0 2 3 1 _ _ _)%float.
  - repeat constructor.
  - lia.
  - vm_compute. reflexivity.
  - vm_compute. reflexivity.
Defined.

Lemma cf_sort_levels_sorted_input_witness :
  cf_sort_levels [3; 2; 2; 1]%float = [3; 2; 2; 1]%float.
Proof.
  apply cf_sort_levels_sorted_input.
  intros [|[|[|i]]] Hi; try reflexivity. simpl in Hi. lia.
Defined.

Lemma cf_fill_ladder_witness :
  cf_fill 3 1 0.5 [0; 0; 0]%float !! 2%nat = Some 1%float.
Proof.
  refine (proj1 (cf_fill_ladder 3 1 0.5 [0; 0; 0]%float _) _)%float.
  - simpl. lia.
  - lia.
Defined.

End CupidProps.

(** ** Properties of the exposure time and its median *)

Module MedianProps.
Import Makemap Median FloatOrder FloatOrderProps Cupid CupidProps MakemapProps.








(** Four pixels, the second without a map value, a step time of half
    a second: the exposure times are 2, undefined, 1 and 3, and their
    median over the valid pixels is 2. *)
Lemma makemap_exposure_median_sample :
  makemap_exposure (L := spec_median) SAI__OK 0.5
    [1; VAL__BADD; 2; 3]%float [4; 0; 2; 6] 4 [0; 0; 0; 0]%float
  = Exposure [2; VAL__BADD; 1; 3]%float 3 2 (Some 2%float).
Proof. vm_compute. reflexivity. Qed.

End MedianProps.
